(** * opengl-base: the error-checking macros, the shader loader and [main]

    A shallow embedding of [src/main.cpp].  The program is a client of three
    libraries (GLFW, GLEW, OpenGL) and of the file system.  Every library
    call is recorded, with what it returned, in a trace kept in the process
    state, and what a call returns is decided by a [World]: an arbitrary
    function of the trace so far.  C++ exceptions are a result of the monad,
    and the render loop runs on fuel. *)

From Stdlib Require Import ZArith List String Ascii Bool Lia QArith DecimalString.
Import ListNotations.
Local Open Scope string_scope.
Local Open Scope list_scope.
Local Open Scope Z_scope.

(** ** Constants of the library headers

    [GL/glew.h] and [GLFW/glfw3.h] are not part of the repository; the
    values are those of the published headers. *)

Definition GL_NO_ERROR : Z := 0.
Definition GL_INVALID_ENUM : Z := 0x0500.
Definition GL_INVALID_VALUE : Z := 0x0501.
Definition GL_INVALID_OPERATION : Z := 0x0502.
Definition GL_OUT_OF_MEMORY : Z := 0x0505.
Definition GL_INVALID_FRAMEBUFFER_OPERATION : Z := 0x0506.
Definition GL_CONTEXT_LOST : Z := 0x0507.

Definition GL_FALSE : Z := 0.
Definition GL_TRUE : Z := 1.
Definition GL_TRIANGLES : Z := 0x0004.
Definition GL_DEPTH_BUFFER_BIT : Z := 0x00000100.
Definition GL_COLOR_BUFFER_BIT : Z := 0x00004000.
Definition GL_UNSIGNED_INT : Z := 0x1405.
Definition GL_FLOAT : Z := 0x1406.
Definition GL_VERSION : Z := 0x1F02.
Definition GL_ARRAY_BUFFER : Z := 0x8892.
Definition GL_ELEMENT_ARRAY_BUFFER : Z := 0x8893.
Definition GL_STATIC_DRAW : Z := 0x88E4.
Definition GL_FRAGMENT_SHADER : Z := 0x8B30.
Definition GL_VERTEX_SHADER : Z := 0x8B31.
Definition GL_COMPILE_STATUS : Z := 0x8B81.
Definition GL_INFO_LOG_LENGTH : Z := 0x8B84.

Definition GLEW_OK : Z := 0.

Definition GLFW_CONTEXT_VERSION_MAJOR : Z := 0x00022002.
Definition GLFW_CONTEXT_VERSION_MINOR : Z := 0x00022003.
Definition GLFW_OPENGL_FORWARD_COMPAT : Z := 0x00022006.
Definition GLFW_OPENGL_PROFILE : Z := 0x00022008.
Definition GLFW_OPENGL_CORE_PROFILE : Z := 0x00032001.

(** ** C types

    [GLuint] and [GLenum] are 32-bit unsigned, [GLint] and [int] 32-bit
    signed.  A value coming from a library is read at its C type; a
    conversion between the two wraps. *)

Definition GLuint (z : Z) : Z := z mod 2 ^ 32.
Definition GLenum (z : Z) : Z := z mod 2 ^ 32.
Definition GLint (z : Z) : Z := (z + 2 ^ 31) mod 2 ^ 32 - 2 ^ 31.
Definition int (z : Z) : Z := GLint z.
(** A [GLFWwindow *]: an address, null when [0]. *)
Definition pointer (z : Z) : Z := z.

Definition sizeof_GLfloat : Z := 4.
Definition sizeof_GLuint : Z := 4.

(** [std::endl] as far as the text written goes. *)
Definition endl : string := String (ascii_of_nat 10) EmptyString.

(** [operator<<] on an [int]. *)
Definition decimal (z : Z) : string := NilEmpty.string_of_int (Z.to_int z).

(** The text a [const char *] designates: the bytes before the first NUL. *)
Fixpoint c_str (s : string) : string :=
  match s with
  | EmptyString => EmptyString
  | String c s' => if Ascii.eqb c zero then EmptyString else String c (c_str s')
  end.

(** [contains sub s]: [sub] occurs in [s]. *)
Fixpoint contains (sub s : string) : bool :=
  prefix sub s ||
  match s with
  | EmptyString => false
  | String _ s' => contains sub s'
  end.

(** ** Library calls, traces and worlds *)

Inductive BufferData : Type :=
| GLfloat_array (l : list Q)
| GLuint_array (l : list Z).

Definition sizeof (d : BufferData) : Z :=
  match d with
  | GLfloat_array l => sizeof_GLfloat * Z.of_nat (List.length l)
  | GLuint_array l => sizeof_GLuint * Z.of_nat (List.length l)
  end.

(** One constructor per library function the program calls, with the
    arguments passed by value.  Out-parameters are results. *)
Inductive Call : Type :=
| glfwInit
| glfwWindowHint (hint value : Z)
| glfwCreateWindow (width height : Z) (title : string)
| glfwGetError
| glfwTerminate
| glfwMakeContextCurrent (window : Z)
| glfwSetFramebufferSizeCallback (window : Z)
| glfwWindowShouldClose (window : Z)
| glfwSwapBuffers (window : Z)
| glfwPollEvents
| set_glewExperimental (value : Z)
| glewInit
| glewGetErrorString (error : Z)
| glGetError
| glGetString (name : Z)
| glViewport (x y width height : Z)
| glGenVertexArrays (n : Z)
| glBindVertexArray (array : Z)
| glGenBuffers (n : Z)
| glBindBuffer (target buffer : Z)
| glBufferData (target size : Z) (data : BufferData) (usage : Z)
| glCreateShader (shaderType : Z)
| glShaderSource (shader count : Z) (source : string)
| glCompileShader (shader : Z)
| glGetShaderiv (shader pname : Z)
| glGetShaderInfoLog (shader bufSize : Z)
| glCreateProgram
| glAttachShader (program shader : Z)
| glLinkProgram (program : Z)
| glUseProgram (program : Z)
| glGetAttribLocation (program : Z) (name : string)
| glEnableVertexAttribArray (index : Z)
| glVertexAttribPointer (index size type normalized stride offset : Z)
| glClear (mask : Z)
| glDrawElements (mode count type offset : Z)
| glDeleteProgram (program : Z)
| glDeleteShader (shader : Z)
| glDeleteBuffers (n buffer : Z)
| glDeleteVertexArrays (n array : Z).

(** What a call handed back to the program. *)
Inductive Ret : Type :=
| RVoid
| RInt (z : Z)
| RStr (s : string)
| RResized (sizes : list (Z * Z)).

Abbreviation Event := (Call * Ret)%type.

(** The libraries and the file system.  An answer may depend on everything
    that happened before; nothing else is assumed of it. *)
Record World : Type := {
  (** integers, enums, object names, addresses *)
  w_int : list Event -> Call -> Z;
  (** texts: descriptions, version strings, info logs *)
  w_str : list Event -> Call -> string;
  (** the framebuffer sizes reported while events are polled *)
  w_resize : list Event -> list (Z * Z);
  (** the files that can be opened for reading, with their contents *)
  w_file : string -> option string
}.

(** ** The process *)

Record Proc : Type := {
  calls : list Event;
  cout : string;
  cerr : string
}.

Definition start : Proc := {| calls := []; cout := ""; cerr := "" |}.

Inductive exn : Type :=
| runtime_error (what : string).

Inductive Res (A : Type) : Type :=
| Val (a : A)
| Throw (e : exn)
| OutOfFuel.
Arguments Val {A} a.
Arguments Throw {A} e.
Arguments OutOfFuel {A}.

Definition M (A : Type) : Type := Proc -> Res A * Proc.

Definition ret {A} (a : A) : M A := fun p => (Val a, p).

Definition bind {A B} (m : M A) (k : A -> M B) : M B :=
  fun p =>
    match m p with
    | (Val a, p') => k a p'
    | (Throw e, p') => (Throw e, p')
    | (OutOfFuel, p') => (OutOfFuel, p')
    end.

Definition throw {A} (e : exn) : M A := fun p => (Throw e, p).

Definition out_of_fuel {A} : M A := fun p => (OutOfFuel, p).

Notation "x <- m ;; k" := (bind m (fun x => k))
  (at level 61, m at next level, right associativity).
Notation "m ;; k" := (bind m (fun _ => k))
  (at level 61, right associativity).

Definition log (c : Call) (r : Ret) (p : Proc) : Proc :=
  {| calls := calls p ++ [(c, r)]; cout := cout p; cerr := cerr p |}.

Definition write_cout (s : string) : M unit :=
  fun p => (Val tt, {| calls := calls p; cout := cout p ++ s; cerr := cerr p |}).

Definition write_cerr (s : string) : M unit :=
  fun p => (Val tt, {| calls := calls p; cout := cout p; cerr := cerr p ++ s |}).

Section Program.

Variable w : World.

(** A call returning nothing. *)
Definition call_void (c : Call) : M unit :=
  fun p => (Val tt, log c RVoid p).

(** A call whose result (or single out-parameter) is read at the C type
    [ty]. *)
Definition call_as (ty : Z -> Z) (c : Call) : M Z :=
  fun p => let r := ty (w_int w (calls p) c) in (Val r, log c (RInt r) p).

(** A call handing back a [const char *]. *)
Definition call_str (c : Call) : M string :=
  fun p => let s := c_str (w_str w (calls p) c) in (Val s, log c (RStr s) p).

(** [glGetShaderInfoLog(shader, bufSize, _, buffer)]: the library stores at
    most [bufSize - 1] characters of the log and a terminating NUL. *)
Definition call_glGetShaderInfoLog (shader bufSize : Z) : M string :=
  fun p =>
    let c := glGetShaderInfoLog shader bufSize in
    let s := substring 0 (Z.to_nat (bufSize - 1)) (c_str (w_str w (calls p) c)) in
    (Val s, log c (RStr s) p).

(** *** main.cpp:10 *)

(** The [switch] of [PrintOpenGLErrors]. *)
Definition ErrorString (Error : Z) : string :=
  if Error =? GL_INVALID_ENUM then "INVALID_ENUM"
  else if Error =? GL_INVALID_VALUE then "INVALID_VALUE"
  else if Error =? GL_INVALID_OPERATION then "INVALID_OPERATION"
  else if Error =? GL_OUT_OF_MEMORY then "OUT_OF_MEMORY"
  else if Error =? GL_INVALID_FRAMEBUFFER_OPERATION then "INVALID_FRAMEBUFFER_OPERATION"
  else if Error =? GL_CONTEXT_LOST then "CONTEXT_LOST"
  else "UNKNOWN_ERROR".

Definition PrintOpenGLErrors (Function File : string) (Line : Z) : M unit :=
  Error <- call_as GLenum glGetError ;;
  if negb (Error =? GL_NO_ERROR) then
    write_cerr ("OpenGL Error in " ++ File ++ " at line " ++ decimal Line
                ++ " calling function " ++ Function ++ ": "
                ++ ErrorString Error ++ endl)
  else ret tt.

(** *** main.cpp:44, the macros

    [_DEBUG] chooses the expansion; [x_text] is [#x], the text of the
    wrapped expression, and [x] the expression itself.  A wrapped call that
    stores through a pointer argument, as [glGenBuffers(1, &VBO)] does,
    returns what it stores, and [CheckedGLCall] hands that value on. *)

Definition CheckedGLCall {A} (_DEBUG : bool) (x_text __FILE__ : string)
    (__LINE__ : Z) (x : M A) : M A :=
  if _DEBUG then
    PrintOpenGLErrors (">>BEFORE<< " ++ x_text) __FILE__ __LINE__ ;;
    r <- x ;;
    PrintOpenGLErrors x_text __FILE__ __LINE__ ;;
    ret r
  else x.

Definition CheckedGLResult {A} (_DEBUG : bool) (x_text __FILE__ : string)
    (__LINE__ : Z) (x : M A) : M A :=
  if _DEBUG then
    PrintOpenGLErrors x_text __FILE__ __LINE__ ;;
    x
  else x.

Definition CheckExistingErrors {A} (_DEBUG : bool) (x_text __FILE__ : string)
    (__LINE__ : Z) (x : M A) : M unit :=
  if _DEBUG then
    PrintOpenGLErrors (">>BEFORE<< " ++ x_text) __FILE__ __LINE__
  else ret tt.

(** *** main.cpp:60 *)

Definition PrintShaderInfoLog (Shader : Z) : M unit :=
  InfoLogLength <- call_as int (glGetShaderiv (GLuint Shader) GL_INFO_LOG_LENGTH) ;;
  if 0 <? InfoLogLength then
    InfoLog <- call_glGetShaderInfoLog (GLuint Shader) InfoLogLength ;;
    write_cout ("Shader Info Log:" ++ endl ++ InfoLog ++ endl)
  else ret tt.

(** *** main.cpp:77 *)

Definition LoadShaderFromFile (path : string) : M string :=
  match w_file w path with
  | None => throw (runtime_error ("Failed to open shader file: " ++ path))
  | Some contents => ret contents
  end.

(** *** main.cpp:89 *)

Definition CompileShader (path : string) (shaderType : Z) : M Z :=
  shaderSource <- LoadShaderFromFile path ;;
  let source := c_str shaderSource in
  shader <- call_as GLuint (glCreateShader shaderType) ;;
  call_void (glShaderSource shader 1 source) ;;
  call_void (glCompileShader shader) ;;
  success <- call_as GLint (glGetShaderiv shader GL_COMPILE_STATUS) ;;
  if success =? 0 then
    infoLog <- call_glGetShaderInfoLog shader 512 ;;
    PrintShaderInfoLog (GLint shader) ;;
    throw (runtime_error ("Shader compilation failed: " ++ infoLog))
  else ret shader.

(** *** main.cpp:111 *)

Definition framebuffer_size_callback (window width height : Z) : M unit :=
  call_void (glViewport 0 0 width height).

(** [glfwPollEvents()] with [framebuffer_size_callback] registered on
    [window]: the library calls it back once per size it reports. *)
Fixpoint resized (window : Z) (sizes : list (Z * Z)) : M unit :=
  match sizes with
  | [] => ret tt
  | (width, height) :: rest =>
      framebuffer_size_callback window width height ;;
      resized window rest
  end.

Definition call_glfwPollEvents (window : Z) : M unit :=
  fun p =>
    let sizes := w_resize w (calls p) in
    resized window sizes (log glfwPollEvents (RResized sizes) p).

(** *** main.cpp:116 *)

(** [#define _DEBUG 1], main.cpp:1. *)
Definition _DEBUG : bool := true.

Definition Vertices : BufferData :=
  GLfloat_array [0; 1 # 2; 1 # 2; - (1 # 2); - (1 # 2); - (1 # 2)]%Q.

Definition Elements : BufferData := GLuint_array [0; 1; 2].

(** The text of the literal ["position"] inside [#x] at main.cpp:201, with
    its quotation marks. *)
Definition quoted_position : string :=
  String (ascii_of_nat 34) (String.append "position" (String (ascii_of_nat 34) EmptyString)).

(** The [while] loop of main.cpp:206; one unit of fuel per test of the
    condition. *)
Fixpoint render_loop (__FILE__ : string) (window : Z) (fuel : nat) : M unit :=
  match fuel with
  | O => out_of_fuel
  | S fuel' =>
      close <- call_as int (glfwWindowShouldClose window) ;;
      if close =? 0 then
        CheckedGLCall _DEBUG "glClear(GL_COLOR_BUFFER_BIT | GL_DEPTH_BUFFER_BIT)"
          __FILE__ 209
          (call_void (glClear (Z.lor GL_COLOR_BUFFER_BIT GL_DEPTH_BUFFER_BIT))) ;;
        CheckedGLCall _DEBUG "glDrawElements(GL_TRIANGLES, 3, GL_UNSIGNED_INT, 0)"
          __FILE__ 212
          (call_void (glDrawElements GL_TRIANGLES 3 GL_UNSIGNED_INT 0)) ;;
        call_void (glfwSwapBuffers window) ;;
        call_glfwPollEvents window ;;
        render_loop __FILE__ window fuel'
      else ret tt
  end.

Definition main (__FILE__ : string) (fuel : nat) : M Z :=
  (* Initialize GLFW *)
  initialized <- call_as int glfwInit ;;
  if initialized =? 0 then
    write_cerr ("Failed to initialize GLFW" ++ endl) ;;
    ret (-1)
  else
  call_void (glfwWindowHint GLFW_CONTEXT_VERSION_MAJOR 3) ;;
  call_void (glfwWindowHint GLFW_CONTEXT_VERSION_MINOR 3) ;;
  call_void (glfwWindowHint GLFW_OPENGL_PROFILE GLFW_OPENGL_CORE_PROFILE) ;;
  call_void (glfwWindowHint GLFW_OPENGL_FORWARD_COMPAT GL_TRUE) ;;
  (* Create window *)
  window <- call_as pointer (glfwCreateWindow 640 480 "Modern OpenGL") ;;
  if window =? 0 then
    write_cerr ("Failed to create GLFW window" ++ endl) ;;
    description <- call_str glfwGetError ;;
    write_cerr ("GLFW Error: " ++ description ++ endl) ;;
    call_void glfwTerminate ;;
    ret (-1)
  else
  call_void (glfwMakeContextCurrent window) ;;
  call_void (glfwSetFramebufferSizeCallback window) ;;
  (* Initialize GLEW *)
  call_void (set_glewExperimental GL_TRUE) ;;
  err <- call_as GLenum glewInit ;;
  if negb (GLEW_OK =? err) then
    text <- call_str (glewGetErrorString err) ;;
    write_cerr ("GLEW Error: " ++ text ++ endl) ;;
    call_void glfwTerminate ;;
    ret (-1)
  else
  (* Print OpenGL version *)
  version <- call_str (glGetString GL_VERSION) ;;
  write_cout ("OpenGL Version: " ++ version ++ endl) ;;
  (* Create and bind VAO *)
  VAO <- CheckedGLCall _DEBUG "glGenVertexArrays(1, &VAO)" __FILE__ 172
           (call_as GLuint (glGenVertexArrays 1)) ;;
  CheckedGLCall _DEBUG "glBindVertexArray(VAO)" __FILE__ 173
    (call_void (glBindVertexArray VAO)) ;;
  (* Create and populate vertex buffer *)
  VBO <- CheckedGLCall _DEBUG "glGenBuffers(1, &VBO)" __FILE__ 177
           (call_as GLuint (glGenBuffers 1)) ;;
  CheckedGLCall _DEBUG "glBindBuffer(GL_ARRAY_BUFFER, VBO)" __FILE__ 178
    (call_void (glBindBuffer GL_ARRAY_BUFFER VBO)) ;;
  CheckedGLCall _DEBUG
    "glBufferData(GL_ARRAY_BUFFER, sizeof(Vertices), Vertices, GL_STATIC_DRAW)"
    __FILE__ 179
    (call_void (glBufferData GL_ARRAY_BUFFER (sizeof Vertices) Vertices GL_STATIC_DRAW)) ;;
  (* Create and populate element buffer *)
  EBO <- CheckedGLCall _DEBUG "glGenBuffers(1, &EBO)" __FILE__ 183
           (call_as GLuint (glGenBuffers 1)) ;;
  CheckedGLCall _DEBUG "glBindBuffer(GL_ELEMENT_ARRAY_BUFFER, EBO)" __FILE__ 184
    (call_void (glBindBuffer GL_ELEMENT_ARRAY_BUFFER EBO)) ;;
  CheckedGLCall _DEBUG
    "glBufferData(GL_ELEMENT_ARRAY_BUFFER, sizeof(Elements), Elements, GL_STATIC_DRAW)"
    __FILE__ 185
    (call_void (glBufferData GL_ELEMENT_ARRAY_BUFFER (sizeof Elements) Elements
                  GL_STATIC_DRAW)) ;;
  (* Create and compile the shaders *)
  VertexShader <- CompileShader "shaders/vertex.glsl" GL_VERTEX_SHADER ;;
  FragmentShader <- CompileShader "shaders/fragment.glsl" GL_FRAGMENT_SHADER ;;
  (* Create and link shader program *)
  ShaderProgram <- CheckedGLResult _DEBUG "glCreateProgram()" __FILE__ 194
                     (call_as GLuint glCreateProgram) ;;
  CheckedGLCall _DEBUG "glAttachShader(ShaderProgram, VertexShader)" __FILE__ 195
    (call_void (glAttachShader ShaderProgram VertexShader)) ;;
  CheckedGLCall _DEBUG "glAttachShader(ShaderProgram, FragmentShader)" __FILE__ 196
    (call_void (glAttachShader ShaderProgram FragmentShader)) ;;
  CheckedGLCall _DEBUG "glLinkProgram(ShaderProgram)" __FILE__ 197
    (call_void (glLinkProgram ShaderProgram)) ;;
  CheckedGLCall _DEBUG "glUseProgram(ShaderProgram)" __FILE__ 198
    (call_void (glUseProgram ShaderProgram)) ;;
  (* Setup vertex attributes *)
  PositionAttribute <-
    CheckedGLResult _DEBUG
      (String.append "glGetAttribLocation(ShaderProgram, "
         (String.append quoted_position ")"))
      __FILE__ 201
      (call_as GLint (glGetAttribLocation ShaderProgram "position")) ;;
  CheckedGLCall _DEBUG "glEnableVertexAttribArray(PositionAttribute)" __FILE__ 202
    (call_void (glEnableVertexAttribArray (GLuint PositionAttribute))) ;;
  CheckedGLCall _DEBUG
    "glVertexAttribPointer(PositionAttribute, 2, GL_FLOAT, GL_FALSE, 0, 0)"
    __FILE__ 203
    (call_void (glVertexAttribPointer (GLuint PositionAttribute) 2 GL_FLOAT
                  GL_FALSE 0 0)) ;;
  (* Main loop *)
  render_loop __FILE__ window fuel ;;
  (* Cleanup *)
  CheckedGLCall _DEBUG "glDeleteProgram(ShaderProgram)" __FILE__ 220
    (call_void (glDeleteProgram ShaderProgram)) ;;
  CheckedGLCall _DEBUG "glDeleteShader(FragmentShader)" __FILE__ 221
    (call_void (glDeleteShader FragmentShader)) ;;
  CheckedGLCall _DEBUG "glDeleteShader(VertexShader)" __FILE__ 222
    (call_void (glDeleteShader VertexShader)) ;;
  CheckedGLCall _DEBUG "glDeleteBuffers(1, &EBO)" __FILE__ 223
    (call_void (glDeleteBuffers 1 EBO)) ;;
  CheckedGLCall _DEBUG "glDeleteBuffers(1, &VBO)" __FILE__ 224
    (call_void (glDeleteBuffers 1 VBO)) ;;
  CheckedGLCall _DEBUG "glDeleteVertexArrays(1, &VAO)" __FILE__ 225
    (call_void (glDeleteVertexArrays 1 VAO)) ;;
  call_void glfwTerminate ;;
  ret 0.

End Program.

(** ** What the libraries answer along a run of [CompileShader] *)

(** The name [glCreateShader] hands out from state [p]. *)
Definition created_shader (w : World) (p : Proc) (shaderType : Z) : Z :=
  GLuint (w_int w (calls p) (glCreateShader shaderType)).

(** The trace once the source [src] has been submitted and compiled. *)
Definition compiled (w : World) (p : Proc) (shaderType : Z) (src : string)
  : list Event :=
  let shader := created_shader w p shaderType in
  calls p ++ [(glCreateShader shaderType, RInt shader);
              (glShaderSource shader 1 (c_str src), RVoid);
              (glCompileShader shader, RVoid)].

(** The value of [success] at main.cpp:100. *)
Definition compile_status (w : World) (p : Proc) (shaderType : Z) (src : string)
  : Z :=
  GLint (w_int w (compiled w p shaderType src)
           (glGetShaderiv (created_shader w p shaderType) GL_COMPILE_STATUS)).

(** The contents of [infoLog] after main.cpp:103. *)
Definition fixed_buffer_log (w : World) (p : Proc) (shaderType : Z) (src : string)
  : string :=
  let shader := created_shader w p shaderType in
  substring 0 (Z.to_nat (512 - 1))
    (c_str (w_str w
              (compiled w p shaderType src
               ++ [(glGetShaderiv shader GL_COMPILE_STATUS,
                    RInt (compile_status w p shaderType src))])
              (glGetShaderInfoLog shader 512))).

(** ** What the libraries answer while [main] starts up *)

(** The value of [glfwInit()] at main.cpp:119. *)
Definition glfwInit_answer (w : World) : Z := int (w_int w [] glfwInit).

(** The trace once the window hints are set. *)
Definition window_hints (w : World) : list Event :=
  [(glfwInit, RInt (glfwInit_answer w));
   (glfwWindowHint GLFW_CONTEXT_VERSION_MAJOR 3, RVoid);
   (glfwWindowHint GLFW_CONTEXT_VERSION_MINOR 3, RVoid);
   (glfwWindowHint GLFW_OPENGL_PROFILE GLFW_OPENGL_CORE_PROFILE, RVoid);
   (glfwWindowHint GLFW_OPENGL_FORWARD_COMPAT GL_TRUE, RVoid)].

(** The value of [window] at main.cpp:133. *)
Definition window_answer (w : World) : Z :=
  pointer (w_int w (window_hints w) (glfwCreateWindow 640 480 "Modern OpenGL")).

(** The text [glfwGetError] stores in [description] at main.cpp:137. *)
Definition glfw_description (w : World) : string :=
  c_str (w_str w
           (window_hints w
            ++ [(glfwCreateWindow 640 480 "Modern OpenGL", RInt (window_answer w))])
           glfwGetError).

(** The trace when [glewInit] is called. *)
Definition context_current (w : World) : list Event :=
  window_hints w
  ++ [(glfwCreateWindow 640 480 "Modern OpenGL", RInt (window_answer w));
      (glfwMakeContextCurrent (window_answer w), RVoid);
      (glfwSetFramebufferSizeCallback (window_answer w), RVoid);
      (set_glewExperimental GL_TRUE, RVoid)].

(** The value of [err] at main.cpp:149. *)
Definition glewInit_answer (w : World) : Z :=
  GLenum (w_int w (context_current w) glewInit).

(** The text of [glewGetErrorString(err)] at main.cpp:151. *)
Definition glew_description (w : World) : string :=
  c_str (w_str w
           (context_current w ++ [(glewInit, RInt (glewInit_answer w))])
           (glewGetErrorString (glewInit_answer w))).

(** ** Views of a trace *)

(** The calls that create or release a GPU object, and the shutdown of
    the windowing library. *)
Definition lifecycle_call (c : Call) : bool :=
  match c with
  | glGenVertexArrays _ | glGenBuffers _ | glCreateShader _ | glCreateProgram
  | glDeleteProgram _ | glDeleteShader _ | glDeleteBuffers _ _
  | glDeleteVertexArrays _ _ | glfwTerminate => true
  | _ => false
  end.

Definition lifecycle (t : list Event) : list Event :=
  filter (fun ev => lifecycle_call (fst ev)) t.

Definition count_calls (f : Call -> bool) (t : list Event) : Z :=
  Z.of_nat (List.length (filter (fun ev => f (fst ev)) t)).

(** ** Specifications of computations *)

(** [hoare P m Q]: from a state in [P], when [m] returns [a] in state [q]
    then [Q a q].  Nothing is said of a run that throws or runs out of
    fuel. *)
Definition hoare {A} (P : Proc -> Prop) (m : M A) (Q : A -> Proc -> Prop) : Prop :=
  forall (p : Proc) (a : A) (q : Proc), P p -> m p = (Val a, q) -> Q a q.

(** [emits m L]: when [m] returns [a], the object-lifecycle calls it made
    are [L a], in that order. *)
Definition emits {A} (m : M A) (L : A -> list Event) : Prop :=
  forall t : list Event,
    hoare (fun p => lifecycle (calls p) = t) m
          (fun a q => lifecycle (calls q) = t ++ L a).

(** [carries m m']: whatever [m] produces, short of running out of fuel,
    [m'] produces too. *)
Definition carries {A} (m m' : M A) : Prop :=
  forall (p : Proc) (r : Res A) (q : Proc),
    m p = (r, q) -> r <> OutOfFuel -> m' p = (r, q).

(** ** The checked-call form the specification describes

    [CheckedGLResult] as the specification words it: the wrapped call
    first, one check after it, the call's value as the result. *)
Definition CheckedGLResult_post_check {A} (w : World) (x_text __FILE__ : string)
    (__LINE__ : Z) (x : M A) : M A :=
  r <- x ;;
  PrintOpenGLErrors w x_text __FILE__ __LINE__ ;;
  ret r.

(** ** Sample worlds *)

Record Script : Type := {
  s_glfwInit : Z;
  s_window : Z;
  s_glewInit : Z;
  s_compile_status : Z;
  s_info_log : string;
  (** how many times the window reports that it should stay open *)
  s_frames : Z;
  (** the error flag a call leaves behind *)
  s_raises : Call -> Z;
  s_files : string -> option string
}.

Definition last_call (t : list Event) : Call :=
  fst (last t (glfwInit, RVoid)).

Definition info_log_length (log : string) : Z :=
  match log with
  | EmptyString => 0
  | _ => Z.of_nat (String.length log) + 1
  end.

(** A driver with one error flag set by the last call and cleared by
    [glGetError], object names handed out in sequence, one info log shared
    by all shaders, and a window that closes after [s_frames] frames. *)
Definition scripted (s : Script) : World := {|
  w_int t c :=
    match c with
    | glfwInit => s_glfwInit s
    | glfwCreateWindow _ _ _ => s_window s
    | glewInit => s_glewInit s
    | glGetError => s_raises s (last_call t)
    | glGenVertexArrays _ | glGenBuffers _ | glCreateShader _ | glCreateProgram =>
        1 + count_calls lifecycle_call t
    | glGetShaderiv _ pname =>
        if pname =? GL_COMPILE_STATUS then s_compile_status s
        else if pname =? GL_INFO_LOG_LENGTH then info_log_length (s_info_log s)
        else 0
    | glfwWindowShouldClose _ =>
        if count_calls (fun c' => match c' with glfwSwapBuffers _ => true | _ => false end) t
           <? s_frames s
        then 0 else 1
    | _ => 0
    end;
  w_str t c :=
    match c with
    | glfwGetError => "GLX: Failed to create context"
    | glewGetErrorString _ => "Missing GL version"
    | glGetString _ => "3.3.0"
    | glGetShaderInfoLog _ _ => s_info_log s
    | _ => ""
    end;
  w_resize t :=
    match last_call t with
    | glfwSwapBuffers _ =>
        if count_calls (fun c' => match c' with glfwPollEvents => true | _ => false end) t
           =? 0
        then [(800, 600)] else []
    | _ => []
    end;
  w_file := s_files s
|}.

Definition shader_files (path : string) : option string :=
  if String.eqb path "shaders/vertex.glsl" then
    Some "in vec2 position; void main() { gl_Position = vec4(position, 0.0, 1.0); }"
  else if String.eqb path "shaders/fragment.glsl" then
    Some "out vec4 color; void main() { color = vec4(1.0); }"
  else None.

Definition healthy : Script := {|
  s_glfwInit := 1;
  s_window := 0x5580;
  s_glewInit := GLEW_OK;
  s_compile_status := 1;
  s_info_log := "";
  s_frames := 2;
  s_raises := fun _ => GL_NO_ERROR;
  s_files := shader_files
|}.

Definition with_glfwInit (v : Z) (s : Script) : Script :=
  {| s_glfwInit := v; s_window := s_window s; s_glewInit := s_glewInit s;
     s_compile_status := s_compile_status s; s_info_log := s_info_log s;
     s_frames := s_frames s; s_raises := s_raises s; s_files := s_files s |}.

Definition with_window (v : Z) (s : Script) : Script :=
  {| s_glfwInit := s_glfwInit s; s_window := v; s_glewInit := s_glewInit s;
     s_compile_status := s_compile_status s; s_info_log := s_info_log s;
     s_frames := s_frames s; s_raises := s_raises s; s_files := s_files s |}.

Definition with_glewInit (v : Z) (s : Script) : Script :=
  {| s_glfwInit := s_glfwInit s; s_window := s_window s; s_glewInit := v;
     s_compile_status := s_compile_status s; s_info_log := s_info_log s;
     s_frames := s_frames s; s_raises := s_raises s; s_files := s_files s |}.

Definition with_compiler (status : Z) (log : string) (s : Script) : Script :=
  {| s_glfwInit := s_glfwInit s; s_window := s_window s; s_glewInit := s_glewInit s;
     s_compile_status := status; s_info_log := log;
     s_frames := s_frames s; s_raises := s_raises s; s_files := s_files s |}.

Definition with_raises (f : Call -> Z) (s : Script) : Script :=
  {| s_glfwInit := s_glfwInit s; s_window := s_window s; s_glewInit := s_glewInit s;
     s_compile_status := s_compile_status s; s_info_log := s_info_log s;
     s_frames := s_frames s; s_raises := f; s_files := s_files s |}.

Definition with_files (f : string -> option string) (s : Script) : Script :=
  {| s_glfwInit := s_glfwInit s; s_window := s_window s; s_glewInit := s_glewInit s;
     s_compile_status := s_compile_status s; s_info_log := s_info_log s;
     s_frames := s_frames s; s_raises := s_raises s; s_files := f |}.

(** Everything works and the window is closed after two frames. *)
Definition healthy_world : World := scripted healthy.

(** The shader compiler accepts the source and leaves a warning. *)
Definition warning_world : World :=
  scripted (with_compiler 1 "WARNING: 0:1: extension not supported" healthy).

(** The shader compiler rejects the source. *)
Definition rejecting_world : World :=
  scripted (with_compiler 0 "ERROR: 0:1: syntax error" healthy).

(** Looking up an attribute fails, as it does on a program that did not
    link. *)
Definition unlinked_world : World :=
  scripted (with_raises
              (fun c => match c with
                        | glGetAttribLocation _ _ => GL_INVALID_OPERATION
                        | _ => GL_NO_ERROR
                        end) healthy).

Definition no_glfw_world : World := scripted (with_glfwInit 0 healthy).
Definition no_window_world : World := scripted (with_window 0 healthy).
Definition no_glew_world : World := scripted (with_glewInit 1 healthy).
Definition no_files_world : World := scripted (with_files (fun _ => None) healthy).

(** ** More views and specifications *)

(** The calls a view keeps, in the order they were made. *)
Definition view (keep : Call -> bool) (t : list Event) : list Event :=
  filter (fun ev => keep (fst ev)) t.

(** [shows keep m L]: when [m] returns [a], the calls it made that [keep]
    selects are [L a], in that order. *)
Definition shows {A} (keep : Call -> bool) (m : M A) (L : A -> list Event) : Prop :=
  forall t : list Event,
    hoare (fun p => view keep (calls p) = t) m
          (fun a q => view keep (calls q) = t ++ L a).

(** The calls of the render loop that do not depend on the error checks or
    on the window events. *)
Definition frame_call (c : Call) : bool :=
  match c with
  | glfwWindowShouldClose _ | glClear _ | glDrawElements _ _ _ _
  | glfwSwapBuffers _ => true
  | _ => false
  end.

(** One turn of the loop of main.cpp:206 under [frame_call]. *)
Definition frame (window : Z) : list Event :=
  [(glfwWindowShouldClose window, RInt 0);
   (glClear (Z.lor GL_COLOR_BUFFER_BIT GL_DEPTH_BUFFER_BIT), RVoid);
   (glDrawElements GL_TRIANGLES 3 GL_UNSIGNED_INT 0, RVoid);
   (glfwSwapBuffers window, RVoid)].

Definition swap_call (c : Call) : bool :=
  match c with
  | glfwSwapBuffers _ => true
  | _ => false
  end.

(** The calls that create, fill, wire, use or release a GPU object. *)
Definition object_call (c : Call) : bool :=
  match c with
  | glGenVertexArrays _ | glBindVertexArray _ | glGenBuffers _
  | glBindBuffer _ _ | glBufferData _ _ _ _
  | glCreateShader _ | glShaderSource _ _ _ | glCompileShader _
  | glCreateProgram | glAttachShader _ _ | glLinkProgram _ | glUseProgram _
  | glGetAttribLocation _ _ | glEnableVertexAttribArray _
  | glVertexAttribPointer _ _ _ _ _ _
  | glDeleteProgram _ | glDeleteShader _ | glDeleteBuffers _ _
  | glDeleteVertexArrays _ _ => true
  | _ => false
  end.

(** The text of [glGetString(GL_VERSION)] at main.cpp:157. *)
Definition gl_version (w : World) : string :=
  c_str (w_str w (context_current w ++ [(glewInit, RInt GLEW_OK)])
           (glGetString GL_VERSION)).

(** The line [PrintOpenGLErrors] writes for the error code [Error]. *)
Definition error_line (File : string) (Line : Z) (Function : string) (Error : Z)
  : string :=
  "OpenGL Error in " ++ File ++ " at line " ++ decimal Line
  ++ " calling function " ++ Function ++ ": " ++ ErrorString Error ++ endl.

(** [plain m]: [m] always returns a value. *)
Definition plain {A} (m : M A) : Prop :=
  forall p : Proc, exists (a : A) (q : Proc), m p = (Val a, q).

(** [halts m]: [m] never runs out of fuel. *)
Definition halts {A} (m : M A) : Prop :=
  forall (p : Proc) (r : Res A) (q : Proc), m p = (r, q) -> r <> OutOfFuel.

(** [throws P m E]: from a state in [P], when [m] throws [e] in state [q]
    then [E e q]. *)
Definition throws {A} (P : Proc -> Prop) (m : M A) (E : exn -> Proc -> Prop) : Prop :=
  forall (p : Proc) (e : exn) (q : Proc), P p -> m p = (Throw e, q) -> E e q.

(** [keeps f m]: when [m] returns, the observation [f] of the state is
    what it was. *)
Definition keeps {A X} (f : Proc -> X) (m : M A) : Prop :=
  forall x : X, hoare (fun p => f p = x) m (fun _ q => f q = x).

(** How an exception can leave [main]: [e] is the exception and [t] the
    object-lifecycle calls made until then.  The exception is one of the
    two of [CompileShader], for the vertex or for the fragment shader, and
    [t] holds creations only. *)
Definition escapes (e : exn) (t : list Event) : Prop :=
  exists VAO VBO EBO : Z,
    let buffers := [(glGenVertexArrays 1, RInt VAO);
                    (glGenBuffers 1, RInt VBO);
                    (glGenBuffers 1, RInt EBO)] in
    (e = runtime_error "Failed to open shader file: shaders/vertex.glsl" /\
     t = buffers) \/
    (exists (VertexShader : Z) (infoLog : string),
        e = runtime_error ("Shader compilation failed: " ++ infoLog) /\
        t = buffers ++ [(glCreateShader GL_VERTEX_SHADER, RInt VertexShader)]) \/
    (exists VertexShader : Z,
        e = runtime_error "Failed to open shader file: shaders/fragment.glsl" /\
        t = buffers ++ [(glCreateShader GL_VERTEX_SHADER, RInt VertexShader)]) \/
    (exists (VertexShader FragmentShader : Z) (infoLog : string),
        e = runtime_error ("Shader compilation failed: " ++ infoLog) /\
        t = buffers ++ [(glCreateShader GL_VERTEX_SHADER, RInt VertexShader);
                        (glCreateShader GL_FRAGMENT_SHADER, RInt FragmentShader)]).

(** A driver in which [glGetError] finds an error on every call to
    [glUseProgram]. *)
Definition misused_world : World :=
  scripted (with_raises
              (fun c => match c with
                        | glUseProgram _ => GL_INVALID_VALUE
                        | _ => GL_NO_ERROR
                        end) healthy).

(** * Properties *)

(** ** C types *)

(** Passing a [GLuint] through a [GLint] parameter and back, as
    [PrintShaderInfoLog] does with the shader name, loses nothing. *)
Lemma GLuint_GLint_GLuint (z : Z) : GLuint (GLint (GLuint z)) = GLuint z.
Proof.
  unfold GLint, GLuint.
  rewrite Zminus_mod_idemp_l.
  replace (z mod 2 ^ 32 + 2 ^ 31 - 2 ^ 31) with (z mod 2 ^ 32) by lia.
  apply Z.mod_mod. lia.
Qed.

(** The shader [PrintShaderInfoLog] asks about at main.cpp:104 is the one
    [CompileShader] created. *)
Lemma PrintShaderInfoLog_of_created_shader (w : World) (p : Proc) (shaderType : Z) :
  GLuint (GLint (created_shader w p shaderType)) = created_shader w p shaderType.
Proof. unfold created_shader. apply GLuint_GLint_GLuint. Qed.

(** ** The monad *)

Lemma bind_Throw {A B} (m : M A) (k : A -> M B) (p p' : Proc) (e : exn) :
  m p = (Throw e, p') -> bind m k p = (Throw e, p').
Proof. unfold bind. now intros ->. Qed.

Lemma bind_inv_Val {A B} (m : M A) (k : A -> M B) (p q : Proc) (b : B) :
  bind m k p = (Val b, q) ->
  exists a p', m p = (Val a, p') /\ k a p' = (Val b, q).
Proof.
  unfold bind. destruct (m p) as [[a | e |] p']; intros H; try discriminate.
  now exists a, p'.
Qed.

(** ** [PrintOpenGLErrors] *)

(** The utility never throws; its effect in one equation. *)
Lemma PrintOpenGLErrors_run (w : World) (Function File : string) (Line : Z)
    (p : Proc) :
  PrintOpenGLErrors w Function File Line p =
    (Val tt,
     {| calls := calls p ++ [(glGetError, RInt (GLenum (w_int w (calls p) glGetError)))];
        cout := cout p;
        cerr :=
          if GLenum (w_int w (calls p) glGetError) =? GL_NO_ERROR then cerr p
          else cerr p ++ ("OpenGL Error in " ++ File ++ " at line " ++ decimal Line
                          ++ " calling function " ++ Function ++ ": "
                          ++ ErrorString (GLenum (w_int w (calls p) glGetError))
                          ++ endl) |}).
Proof.
  unfold PrintOpenGLErrors, bind, call_as, write_cerr, ret, log. simpl.
  destruct (GLenum (w_int w (calls p) glGetError) =? GL_NO_ERROR); reflexivity.
Qed.

(** C1.  [PrintOpenGLErrors] queries the error flag once.  When the flag is
    [GL_NO_ERROR] nothing is written: the process state changes by the
    record of the query alone.  Otherwise exactly one line goes to the
    diagnostic stream, made of the file, the line, the call-site label and
    the name of the error; each of the six known codes has its own name and
    every other code is named UNKNOWN_ERROR. *)
Theorem PrintOpenGLErrors_report :
  forall (w : World) (Function File : string) (Line : Z) (p : Proc),
    let Error := GLenum (w_int w (calls p) glGetError) in
    (Error = GL_NO_ERROR ->
       PrintOpenGLErrors w Function File Line p =
         (Val tt, {| calls := calls p ++ [(glGetError, RInt Error)];
                     cout := cout p;
                     cerr := cerr p |})) /\
    (Error <> GL_NO_ERROR ->
       PrintOpenGLErrors w Function File Line p =
         (Val tt, {| calls := calls p ++ [(glGetError, RInt Error)];
                     cout := cout p;
                     cerr := cerr p ++ ("OpenGL Error in " ++ File ++ " at line "
                                        ++ decimal Line ++ " calling function "
                                        ++ Function ++ ": " ++ ErrorString Error
                                        ++ endl) |})) /\
    ErrorString GL_INVALID_ENUM = "INVALID_ENUM"%string /\
    ErrorString GL_INVALID_VALUE = "INVALID_VALUE"%string /\
    ErrorString GL_INVALID_OPERATION = "INVALID_OPERATION"%string /\
    ErrorString GL_OUT_OF_MEMORY = "OUT_OF_MEMORY"%string /\
    ErrorString GL_INVALID_FRAMEBUFFER_OPERATION
      = "INVALID_FRAMEBUFFER_OPERATION"%string /\
    ErrorString GL_CONTEXT_LOST = "CONTEXT_LOST"%string /\
    (forall code : Z,
        code <> GL_INVALID_ENUM -> code <> GL_INVALID_VALUE ->
        code <> GL_INVALID_OPERATION -> code <> GL_OUT_OF_MEMORY ->
        code <> GL_INVALID_FRAMEBUFFER_OPERATION -> code <> GL_CONTEXT_LOST ->
        ErrorString code = "UNKNOWN_ERROR"%string).
Proof.
  intros w Function File Line p Error.
  repeat split; try reflexivity.
  - intros H. rewrite PrintOpenGLErrors_run. fold Error.
    apply Z.eqb_eq in H. now rewrite H.
  - intros H. rewrite PrintOpenGLErrors_run. fold Error.
    apply Z.eqb_neq in H. now rewrite H.
  - intros code H1 H2 H3 H4 H5 H6. unfold ErrorString.
    apply Z.eqb_neq in H1, H2, H3, H4, H5, H6.
    now rewrite H1, H2, H3, H4, H5, H6.
Qed.

(** C1 at work: a clean flag in [healthy_world]; in [unlinked_world], right
    after an attribute lookup, the first branch is vacuous and the second
    gives the line; code [0x0503] has no name of its own. *)
Lemma PrintOpenGLErrors_report_witness :
  PrintOpenGLErrors healthy_world "glClear(0)" "main.cpp" 209 start =
    (Val tt, {| calls := [(glGetError, RInt 0)]; cout := ""; cerr := "" |}) /\
  PrintOpenGLErrors unlinked_world "glUseProgram(7)" "main.cpp" 198
      {| calls := [(glGetAttribLocation 7 "position", RInt (-1))];
         cout := ""; cerr := "" |} =
    (Val tt,
     {| calls := [(glGetAttribLocation 7 "position", RInt (-1));
                  (glGetError, RInt GL_INVALID_OPERATION)];
        cout := "";
        cerr := "OpenGL Error in main.cpp at line 198 calling function glUseProgram(7): INVALID_OPERATION"
                ++ endl |}) /\
  ErrorString 0x0503 = "UNKNOWN_ERROR"%string.
Proof.
  split; [| split].
  - apply (PrintOpenGLErrors_report healthy_world "glClear(0)" "main.cpp" 209 start).
    reflexivity.
  - apply (PrintOpenGLErrors_report unlinked_world "glUseProgram(7)" "main.cpp" 198
             {| calls := [(glGetAttribLocation 7 "position", RInt (-1))];
                cout := ""; cerr := "" |}).
    vm_compute. discriminate.
  - apply (PrintOpenGLErrors_report healthy_world "" "" 0 start);
      vm_compute; discriminate.
Defined.

(** ** The macros *)

(** C2.  In debug mode [CheckedGLResult] evaluates to the value of the
    wrapped call, but its one check runs before the call, not after it:
    the run is the run of [x] from the state the check leaves.  In
    [unlinked_world], where the attribute lookup of main.cpp:201 raises
    [GL_INVALID_OPERATION], the macro reports nothing and leaves the error
    pending, while a check placed after the call reports it under the label
    of the call. *)
Theorem CheckedGLResult_checks_before_the_call :
  (forall (w : World) (A : Type) (x_text file : string) (line : Z) (x : M A)
          (p : Proc),
      CheckedGLResult w true x_text file line x p =
        x (snd (PrintOpenGLErrors w x_text file line p))) /\
  (let label :=
     ("glGetAttribLocation(ShaderProgram, " ++ quoted_position ++ ")")%string in
   let x := call_as unlinked_world GLint (glGetAttribLocation 6 "position") in
   CheckedGLResult unlinked_world true label "main.cpp" 201 x start =
     (Val 0, {| calls := [(glGetError, RInt GL_NO_ERROR);
                          (glGetAttribLocation 6 "position", RInt 0)];
                cout := ""; cerr := "" |}) /\
   CheckedGLResult_post_check unlinked_world label "main.cpp" 201 x start =
     (Val 0, {| calls := [(glGetAttribLocation 6 "position", RInt 0);
                          (glGetError, RInt GL_INVALID_OPERATION)];
                cout := "";
                cerr := "OpenGL Error in main.cpp at line 201 calling function "
                        ++ label ++ ": INVALID_OPERATION" ++ endl |})).
Proof.
  split.
  - intros w A x_text file line x p. unfold CheckedGLResult, bind.
    now rewrite PrintOpenGLErrors_run.
  - split; reflexivity.
Qed.

(** C9, as far as the code goes.  With the debug switch off
    [CheckedGLCall(x)] and [CheckedGLResult(x)] are [x]: same result, same
    state, nothing written and no call added.  [CheckExistingErrors(x)]
    expands to nothing: [x] is not run at all and the state is untouched. *)
Theorem release_expansions :
  forall (w : World) (A : Type) (x_text file : string) (line : Z) (x : M A)
         (p : Proc),
    CheckedGLCall w false x_text file line x p = x p /\
    CheckedGLResult w false x_text file line x p = x p /\
    CheckExistingErrors w false x_text file line x p = (Val tt, p).
Proof. intros. repeat split. Qed.

(** C9 as stated fails for [CheckExistingErrors]: in release mode it does
    not behave as the bare call.  Wrapped around [glUseProgram(6)] it leaves
    the trace empty, where the bare call is recorded. *)
Lemma CheckExistingErrors_release_is_not_the_call :
  let x := call_void (glUseProgram 6) in
  snd (CheckExistingErrors healthy_world false "glUseProgram(6)" "main.cpp" 198 x start)
    = start /\
  snd (x start) = {| calls := [(glUseProgram 6, RVoid)]; cout := ""; cerr := "" |} /\
  snd (CheckExistingErrors healthy_world false "glUseProgram(6)" "main.cpp" 198 x start)
    <> snd (x start).
Proof. repeat split. discriminate. Qed.

(** ** [PrintShaderInfoLog], [LoadShaderFromFile], [CompileShader] *)

(** The calls [PrintShaderInfoLog] makes from state [p]. *)
Lemma PrintShaderInfoLog_run (w : World) (Shader : Z) (p : Proc) :
  let query := glGetShaderiv (GLuint Shader) GL_INFO_LOG_LENGTH in
  let InfoLogLength := int (w_int w (calls p) query) in
  let fetch := glGetShaderInfoLog (GLuint Shader) InfoLogLength in
  let InfoLog :=
    substring 0 (Z.to_nat (InfoLogLength - 1))
      (c_str (w_str w (calls p ++ [(query, RInt InfoLogLength)]) fetch)) in
  PrintShaderInfoLog w Shader p =
    (Val tt,
     if 0 <? InfoLogLength then
       {| calls := (calls p ++ [(query, RInt InfoLogLength)]) ++ [(fetch, RStr InfoLog)];
          cout := cout p ++ ("Shader Info Log:" ++ endl ++ InfoLog ++ endl);
          cerr := cerr p |}
     else
       {| calls := calls p ++ [(query, RInt InfoLogLength)];
          cout := cout p;
          cerr := cerr p |}).
Proof.
  intros query InfoLogLength fetch InfoLog.
  unfold PrintShaderInfoLog, bind, call_as, call_glGetShaderInfoLog, write_cout,
    ret, log. simpl. fold query. fold InfoLogLength.
  destruct (0 <? InfoLogLength); reflexivity.
Qed.

(** [PrintShaderInfoLog] adds calls at the end of the trace, none of them
    creating or releasing an object, and writes nothing to [cerr]. *)
Lemma PrintShaderInfoLog_quiet (w : World) (Shader : Z) (p : Proc) :
  exists (p' : Proc) (added : list Event),
    PrintShaderInfoLog w Shader p = (Val tt, p') /\
    calls p' = calls p ++ added /\ lifecycle added = [] /\ cerr p' = cerr p.
Proof.
  rewrite PrintShaderInfoLog_run. cbv zeta.
  destruct (0 <? _).
  - eexists. eexists. split; [reflexivity |]. simpl.
    rewrite <- app_assoc. split; [reflexivity |]. split; reflexivity.
  - eexists. eexists. split; [reflexivity |]. simpl.
    split; [reflexivity |]. split; reflexivity.
Qed.

Ltac run_calls :=
  unfold bind, ret, throw, call_as, call_void, call_str, call_glGetShaderInfoLog,
    write_cout, write_cerr, log;
  cbn [calls cout cerr].

(** [CompileShader] when [success] is set. *)
Lemma CompileShader_success_run (w : World) (path src : string)
    (shaderType : Z) (p : Proc) :
  w_file w path = Some src ->
  compile_status w p shaderType src <> 0 ->
  CompileShader w path shaderType p =
    (Val (created_shader w p shaderType),
     {| calls := compiled w p shaderType src
                 ++ [(glGetShaderiv (created_shader w p shaderType) GL_COMPILE_STATUS,
                      RInt (compile_status w p shaderType src))];
        cout := cout p;
        cerr := cerr p |}).
Proof.
  intros Hfile Hstatus. apply Z.eqb_neq in Hstatus.
  unfold compile_status, compiled, created_shader in *.
  unfold CompileShader, LoadShaderFromFile. rewrite Hfile.
  run_calls. rewrite <- !app_assoc. cbn [app].
  rewrite Hstatus. reflexivity.
Qed.

(** [CompileShader] when [success] is clear. *)
Lemma CompileShader_failure_run (w : World) (path src : string)
    (shaderType : Z) (p : Proc) :
  w_file w path = Some src ->
  compile_status w p shaderType src = 0 ->
  CompileShader w path shaderType p =
    (Throw (runtime_error ("Shader compilation failed: "
                           ++ fixed_buffer_log w p shaderType src)),
     snd (PrintShaderInfoLog w (GLint (created_shader w p shaderType))
            {| calls := compiled w p shaderType src
                        ++ [(glGetShaderiv (created_shader w p shaderType)
                               GL_COMPILE_STATUS, RInt 0);
                            (glGetShaderInfoLog (created_shader w p shaderType) 512,
                             RStr (fixed_buffer_log w p shaderType src))];
               cout := cout p;
               cerr := cerr p |})).
Proof.
  intros Hfile Hstatus.
  unfold fixed_buffer_log. rewrite Hstatus.
  unfold compile_status, compiled, created_shader in *.
  rewrite <- !app_assoc. cbn [app].
  unfold CompileShader, LoadShaderFromFile. rewrite Hfile.
  run_calls. rewrite <- !app_assoc. cbn [app].
  rewrite !Hstatus. change (0 =? 0) with true. cbv iota beta.
  cbn [calls cout cerr]. rewrite <- !app_assoc. cbn [app].
  rewrite PrintShaderInfoLog_run. reflexivity.
Qed.

Lemma substring_0_length (n : nat) (s : string) :
  (String.length (substring 0 n s) <= n)%nat.
Proof.
  revert s. induction n as [|n IH]; intros [|c s]; simpl; try lia.
  specialize (IH s). lia.
Qed.

Lemma substring_0_all (n : nat) (s : string) :
  (String.length s <= n)%nat -> substring 0 n s = s.
Proof.
  revert s. induction n as [|n IH]; intros [|c s]; simpl; intros H;
    try reflexivity; try lia.
  rewrite IH by lia. reflexivity.
Qed.

Lemma lifecycle_app (t u : list Event) :
  lifecycle (t ++ u) = lifecycle t ++ lifecycle u.
Proof. unfold lifecycle. apply filter_app. Qed.

Lemma lifecycle_In (ev : Event) (t : list Event) :
  In ev t -> lifecycle_call (fst ev) = true -> In ev (lifecycle t).
Proof. intros Hin Hc. unfold lifecycle. apply filter_In. now split. Qed.

(** C3, as far as the code goes.  When the source compiles, [CompileShader]
    returns the name of the new shader and writes nothing: after the four
    calls that create, fill, compile and query the shader it neither asks
    for the info log nor prints it.  [PrintShaderInfoLog] itself asks for
    the length of the log and, when it is positive, fetches the log into a
    buffer of exactly that size and prints it; [CompileShader] calls it on
    the failure path only. *)
Theorem CompileShader_success :
  forall (w : World) (path src : string) (shaderType : Z) (p : Proc),
    w_file w path = Some src ->
    compile_status w p shaderType src <> 0 ->
    CompileShader w path shaderType p =
      (Val (created_shader w p shaderType),
       {| calls := compiled w p shaderType src
                   ++ [(glGetShaderiv (created_shader w p shaderType)
                          GL_COMPILE_STATUS,
                        RInt (compile_status w p shaderType src))];
          cout := cout p;
          cerr := cerr p |}) /\
    (forall (Shader : Z) (q : Proc),
        let query := glGetShaderiv (GLuint Shader) GL_INFO_LOG_LENGTH in
        let InfoLogLength := int (w_int w (calls q) query) in
        let fetch := glGetShaderInfoLog (GLuint Shader) InfoLogLength in
        let InfoLog :=
          substring 0 (Z.to_nat (InfoLogLength - 1))
            (c_str (w_str w (calls q ++ [(query, RInt InfoLogLength)]) fetch)) in
        PrintShaderInfoLog w Shader q =
          (Val tt,
           if 0 <? InfoLogLength then
             {| calls := (calls q ++ [(query, RInt InfoLogLength)])
                         ++ [(fetch, RStr InfoLog)];
                cout := cout q ++ ("Shader Info Log:" ++ endl ++ InfoLog ++ endl);
                cerr := cerr q |}
           else
             {| calls := calls q ++ [(query, RInt InfoLogLength)];
                cout := cout q;
                cerr := cerr q |})).
Proof.
  intros w path src shaderType p Hfile Hstatus. split.
  - now apply CompileShader_success_run.
  - intros Shader q. apply PrintShaderInfoLog_run.
Qed.

Lemma CompileShader_success_witness :
  CompileShader warning_world "shaders/vertex.glsl" GL_VERTEX_SHADER start =
    (Val 1,
     {| calls := [(glCreateShader GL_VERTEX_SHADER, RInt 1);
                  (glShaderSource 1 1
                     "in vec2 position; void main() { gl_Position = vec4(position, 0.0, 1.0); }",
                   RVoid);
                  (glCompileShader 1, RVoid);
                  (glGetShaderiv 1 GL_COMPILE_STATUS, RInt 1)];
        cout := ""; cerr := "" |}).
Proof.
  apply (CompileShader_success warning_world "shaders/vertex.glsl"
           "in vec2 position; void main() { gl_Position = vec4(position, 0.0, 1.0); }"
           GL_VERTEX_SHADER start).
  - reflexivity.
  - vm_compute. discriminate.
Defined.

(** C3 as stated fails: in [warning_world] the source compiles and the
    driver holds a non-empty info log, which [PrintShaderInfoLog] would
    print if it were called; [CompileShader] returns the shader and prints
    nothing. *)
Lemma CompileShader_success_prints_no_log :
  let r := CompileShader warning_world "shaders/vertex.glsl" GL_VERTEX_SHADER start in
  fst r = Val 1 /\
  cout (snd r) = ""%string /\
  cout (snd (PrintShaderInfoLog warning_world 1 (snd r))) =
    ("Shader Info Log:" ++ endl ++ "WARNING: 0:1: extension not supported" ++ endl)%string.
Proof. repeat split. Qed.

(** C4.  When the compile status reports failure, [CompileShader] throws a
    [runtime_error] whose message is ["Shader compilation failed: "]
    followed by the info log as it was retrieved into the 512-byte buffer:
    at most 511 characters of it, and all of it when it is that short. *)
Theorem CompileShader_failure_message :
  forall (w : World) (path src : string) (shaderType : Z) (p : Proc),
    w_file w path = Some src ->
    compile_status w p shaderType src = 0 ->
    let shader := created_shader w p shaderType in
    let driver_log :=
      c_str (w_str w
               (compiled w p shaderType src
                ++ [(glGetShaderiv shader GL_COMPILE_STATUS, RInt 0)])
               (glGetShaderInfoLog shader 512)) in
    let infoLog := substring 0 511 driver_log in
    fst (CompileShader w path shaderType p) =
      Throw (runtime_error ("Shader compilation failed: " ++ infoLog)) /\
    (String.length infoLog <= 511)%nat /\
    ((String.length driver_log <= 511)%nat -> infoLog = driver_log).
Proof.
  intros w path src shaderType p Hfile Hstatus shader driver_log infoLog.
  split; [| split].
  - rewrite (CompileShader_failure_run w path src shaderType p Hfile Hstatus).
    unfold fixed_buffer_log. rewrite Hstatus. reflexivity.
  - apply substring_0_length.
  - apply substring_0_all.
Qed.

Lemma CompileShader_failure_message_witness :
  fst (CompileShader rejecting_world "shaders/fragment.glsl" GL_FRAGMENT_SHADER start) =
    Throw (runtime_error "Shader compilation failed: ERROR: 0:1: syntax error").
Proof.
  apply (CompileShader_failure_message rejecting_world "shaders/fragment.glsl"
           "out vec4 color; void main() { color = vec4(1.0); }"
           GL_FRAGMENT_SHADER start); reflexivity.
Defined.

(** C5.  When the path cannot be opened, [CompileShader] throws a
    [runtime_error] naming the path and the process state is untouched: no
    library call was made, in particular no shader was created. *)
Theorem CompileShader_unreadable_file :
  forall (w : World) (path : string) (shaderType : Z) (p : Proc),
    w_file w path = None ->
    LoadShaderFromFile w path p =
      (Throw (runtime_error ("Failed to open shader file: " ++ path)), p) /\
    CompileShader w path shaderType p =
      (Throw (runtime_error ("Failed to open shader file: " ++ path)), p).
Proof.
  intros w path shaderType p Hfile.
  assert (Hload : LoadShaderFromFile w path p =
                  (Throw (runtime_error ("Failed to open shader file: " ++ path)), p)).
  { unfold LoadShaderFromFile. now rewrite Hfile. }
  split; [exact Hload |].
  unfold CompileShader. now rewrite (bind_Throw _ _ _ _ _ Hload).
Qed.

Lemma CompileShader_unreadable_file_witness :
  CompileShader healthy_world "shaders/missing.glsl" GL_VERTEX_SHADER start =
    (Throw (runtime_error "Failed to open shader file: shaders/missing.glsl"), start).
Proof.
  apply (CompileShader_unreadable_file healthy_world "shaders/missing.glsl"
           GL_VERTEX_SHADER start).
  reflexivity.
Defined.

(** C10.  When compilation fails, [CompileShader] throws with the shader
    still allocated: of the calls it added to the trace, the only one that
    creates or releases an object is the [glCreateShader] that made the
    shader; no [glDeleteShader] precedes the throw. *)
Theorem CompileShader_failure_leaks_shader :
  forall (w : World) (path src : string) (shaderType : Z) (p : Proc),
    w_file w path = Some src ->
    compile_status w p shaderType src = 0 ->
    exists (e : exn) (p' : Proc) (added : list Event),
      CompileShader w path shaderType p = (Throw e, p') /\
      calls p' = calls p ++ added /\
      lifecycle added =
        [(glCreateShader shaderType, RInt (created_shader w p shaderType))] /\
      (forall (shader : Z) (r : Ret), ~ In (glDeleteShader shader, r) added).
Proof.
  intros w path src shaderType p Hfile Hstatus.
  rewrite (CompileShader_failure_run w path src shaderType p Hfile Hstatus).
  match goal with
  | |- context [PrintShaderInfoLog w ?s ?q] =>
      destruct (PrintShaderInfoLog_quiet w s q) as (p' & more & E & Hcalls & Hquiet & _);
      rewrite E
  end.
  cbn [snd calls] in *.
  set (added :=
         [(glCreateShader shaderType, RInt (created_shader w p shaderType));
          (glShaderSource (created_shader w p shaderType) 1 (c_str src), RVoid);
          (glCompileShader (created_shader w p shaderType), RVoid);
          (glGetShaderiv (created_shader w p shaderType) GL_COMPILE_STATUS, RInt 0);
          (glGetShaderInfoLog (created_shader w p shaderType) 512,
           RStr (fixed_buffer_log w p shaderType src))] ++ more).
  assert (Hl : lifecycle added =
               [(glCreateShader shaderType, RInt (created_shader w p shaderType))]).
  { unfold added. rewrite lifecycle_app, Hquiet. reflexivity. }
  eexists. exists p', added. split; [reflexivity |]. split; [| split].
  - rewrite Hcalls. unfold added, compiled. rewrite <- !app_assoc. reflexivity.
  - exact Hl.
  - intros shader r Hin.
    apply lifecycle_In in Hin; [| reflexivity].
    rewrite Hl in Hin. destruct Hin as [Hin | []]. discriminate Hin.
Qed.

Lemma CompileShader_failure_leaks_shader_witness :
  exists (e : exn) (p' : Proc) (added : list Event),
    CompileShader rejecting_world "shaders/vertex.glsl" GL_VERTEX_SHADER start
      = (Throw e, p') /\
    calls p' = calls start ++ added /\
    lifecycle added = [(glCreateShader GL_VERTEX_SHADER, RInt 1)] /\
    (forall (shader : Z) (r : Ret), ~ In (glDeleteShader shader, r) added).
Proof.
  apply (CompileShader_failure_leaks_shader rejecting_world "shaders/vertex.glsl"
           "in vec2 position; void main() { gl_Position = vec4(position, 0.0, 1.0); }"
           GL_VERTEX_SHADER start); reflexivity.
Defined.

(** ** [main]: the fatal initialization failures *)

Section Steps.

Variable w : World.

Lemma step_call_as {B} (ty : Z -> Z) (c : Call) (k : Z -> M B) (p : Proc) :
  bind (call_as w ty c) k p =
    k (ty (w_int w (calls p) c)) (log c (RInt (ty (w_int w (calls p) c))) p).
Proof. reflexivity. Qed.

Lemma step_call_void {B} (c : Call) (k : unit -> M B) (p : Proc) :
  bind (call_void c) k p = k tt (log c RVoid p).
Proof. reflexivity. Qed.

Lemma step_call_str {B} (c : Call) (k : string -> M B) (p : Proc) :
  bind (call_str w c) k p =
    k (c_str (w_str w (calls p) c)) (log c (RStr (c_str (w_str w (calls p) c))) p).
Proof. reflexivity. Qed.

Lemma step_write_cerr {B} (s : string) (k : unit -> M B) (p : Proc) :
  bind (write_cerr s) k p =
    k tt {| calls := calls p; cout := cout p; cerr := cerr p ++ s |}.
Proof. reflexivity. Qed.

Lemma step_write_cout {B} (s : string) (k : unit -> M B) (p : Proc) :
  bind (write_cout s) k p =
    k tt {| calls := calls p; cout := cout p ++ s; cerr := cerr p |}.
Proof. reflexivity. Qed.

End Steps.

(** Give the answers of the start-up calls their names. *)
Ltac name_answers :=
  repeat match goal with
    | |- context [int (w_int ?w ?t glfwInit)] =>
        change (int (w_int w t glfwInit)) with (glfwInit_answer w)
    | |- context [pointer (w_int ?w ?t (glfwCreateWindow ?a ?b ?s))] =>
        change (pointer (w_int w t (glfwCreateWindow a b s))) with (window_answer w)
    | |- context [GLenum (w_int ?w ?t glewInit)] =>
        change (GLenum (w_int w t glewInit)) with (glewInit_answer w)
    | |- context [c_str (w_str ?w ?t glfwGetError)] =>
        change (c_str (w_str w t glfwGetError)) with (glfw_description w)
    | |- context [c_str (w_str ?w ?t (glewGetErrorString ?e))] =>
        change (c_str (w_str w t (glewGetErrorString e))) with (glew_description w)
    end.

(** Run the library call or the write at the head of the goal. *)
Ltac step :=
  first [ rewrite step_call_as | rewrite step_call_void | rewrite step_call_str
        | rewrite step_write_cerr | rewrite step_write_cout ];
  cbv beta; unfold log; cbn [calls cout cerr start app]; name_answers.

(** Take the branch that [H], an equation on the condition, selects. *)
Ltac branch H := rewrite H; cbv iota.

Lemma main_glfwInit_failure (w : World) (file : string) (fuel : nat) :
  glfwInit_answer w = 0 ->
  main w file fuel start =
    (Val (-1),
     {| calls := [(glfwInit, RInt 0)];
        cout := "";
        cerr := "Failed to initialize GLFW" ++ endl |}).
Proof.
  intros H. unfold main. step.
  rewrite H. change (0 =? 0) with true. cbv iota.
  step. reflexivity.
Qed.

Lemma main_window_failure (w : World) (file : string) (fuel : nat) :
  glfwInit_answer w <> 0 ->
  window_answer w = 0 ->
  main w file fuel start =
    (Val (-1),
     {| calls := window_hints w
                 ++ [(glfwCreateWindow 640 480 "Modern OpenGL", RInt 0);
                     (glfwGetError, RStr (glfw_description w));
                     (glfwTerminate, RVoid)];
        cout := "";
        cerr := "Failed to create GLFW window" ++ endl
                ++ "GLFW Error: " ++ glfw_description w ++ endl |}).
Proof.
  intros Hinit Hwindow. apply Z.eqb_neq in Hinit.
  unfold main. step. branch Hinit. do 5 step.
  assert (E : (window_answer w =? 0) = true) by now apply Z.eqb_eq.
  branch E. do 4 step.
  rewrite Hwindow. reflexivity.
Qed.

Lemma main_glewInit_failure (w : World) (file : string) (fuel : nat) :
  glfwInit_answer w <> 0 ->
  window_answer w <> 0 ->
  glewInit_answer w <> GLEW_OK ->
  main w file fuel start =
    (Val (-1),
     {| calls := context_current w
                 ++ [(glewInit, RInt (glewInit_answer w));
                     (glewGetErrorString (glewInit_answer w),
                      RStr (glew_description w));
                     (glfwTerminate, RVoid)];
        cout := "";
        cerr := "GLEW Error: " ++ glew_description w ++ endl |}).
Proof.
  intros Hinit Hwindow Hglew. apply Z.eqb_neq in Hinit, Hwindow.
  unfold main. step. branch Hinit. do 5 step. branch Hwindow. do 4 step.
  assert (E : negb (GLEW_OK =? glewInit_answer w) = true).
  { apply negb_true_iff, Z.eqb_neq. intros E. now apply Hglew. }
  branch E. do 3 step. reflexivity.
Qed.

(** ** Rules for [hoare] and [emits] *)

Lemma hoare_run {A} (m : M A) (Q : A -> Proc -> Prop) :
  hoare (fun _ => True) m Q ->
  forall (p : Proc) (a : A) (q : Proc), m p = (Val a, q) -> Q a q.
Proof. intros H p a q E. now apply (H p a q I). Qed.

Lemma hoare_ret {A} (P : Proc -> Prop) (a : A) (Q : A -> Proc -> Prop) :
  (forall p, P p -> Q a p) -> hoare P (ret a) Q.
Proof. intros H p a' q Hp E. injection E as Ha Hq. subst a' q. now apply H. Qed.

Lemma hoare_bind {A B} (P : Proc -> Prop) (m : M A) (R : A -> Proc -> Prop)
    (k : A -> M B) (Q : B -> Proc -> Prop) :
  hoare P m R -> (forall a, hoare (R a) (k a) Q) -> hoare P (bind m k) Q.
Proof.
  intros Hm Hk p b q Hp E.
  apply bind_inv_Val in E. destruct E as (a & p' & E1 & E2).
  exact (Hk a p' b q (Hm p a p' Hp E1) E2).
Qed.

(** What comes before does not matter to a property of the result alone. *)
Lemma hoare_skip {A B} (P : Proc -> Prop) (m : M A) (k : A -> M B)
    (Q : B -> Proc -> Prop) :
  (forall a, hoare (fun _ => True) (k a) Q) -> hoare P (bind m k) Q.
Proof.
  intros Hk. apply hoare_bind with (R := fun _ _ => True); [| exact Hk].
  now intros p a q _ _.
Qed.

Lemma hoare_if {A} (P : Proc -> Prop) (c : bool) (m1 m2 : M A)
    (Q : A -> Proc -> Prop) :
  hoare P m1 Q -> hoare P m2 Q -> hoare P (if c then m1 else m2) Q.
Proof. now destruct c. Qed.

Lemma hoare_emits_bind {A B} (t : list Event) (m : M A) (L : A -> list Event)
    (k : A -> M B) (Q : B -> Proc -> Prop) :
  emits m L ->
  (forall a, hoare (fun p => lifecycle (calls p) = t ++ L a) (k a) Q) ->
  hoare (fun p => lifecycle (calls p) = t) (bind m k) Q.
Proof. intros Hm Hk. eapply hoare_bind; [apply Hm | exact Hk]. Qed.

Lemma hoare_emits_tail {A} (t : list Event) (m : M A) (L : A -> list Event)
    (Q : A -> Proc -> Prop) :
  emits m L ->
  (forall a q, lifecycle (calls q) = t ++ L a -> Q a q) ->
  hoare (fun p => lifecycle (calls p) = t) m Q.
Proof. intros Hm HQ p a q Hp E. apply HQ. exact (Hm t p a q Hp E). Qed.

Create HintDb emits.

Lemma emits_ret {A} (a : A) : emits (ret a) (fun _ => []).
Proof.
  intros t. apply hoare_ret. intros p Hp. now rewrite app_nil_r.
Qed.

Lemma emits_call_void (c : Call) :
  emits (call_void c) (fun _ => lifecycle [(c, RVoid)]).
Proof.
  intros t p a q Hp E. injection E as Ha Hq. subst a q. cbn [log calls].
  now rewrite lifecycle_app, Hp.
Qed.

Lemma emits_call_as (w : World) (ty : Z -> Z) (c : Call) :
  emits (call_as w ty c) (fun r => lifecycle [(c, RInt r)]).
Proof.
  intros t p a q Hp E. injection E as Ha Hq. subst a q. cbn [log calls].
  now rewrite lifecycle_app, Hp.
Qed.

Lemma emits_call_str (w : World) (c : Call) :
  emits (call_str w c) (fun s => lifecycle [(c, RStr s)]).
Proof.
  intros t p a q Hp E. injection E as Ha Hq. subst a q. cbn [log calls].
  now rewrite lifecycle_app, Hp.
Qed.

Lemma emits_write_cout (s : string) : emits (write_cout s) (fun _ => []).
Proof.
  intros t p a q Hp E. injection E as Ha Hq. subst a q. cbn [calls].
  now rewrite app_nil_r.
Qed.

Lemma emits_write_cerr (s : string) : emits (write_cerr s) (fun _ => []).
Proof.
  intros t p a q Hp E. injection E as Ha Hq. subst a q. cbn [calls].
  now rewrite app_nil_r.
Qed.

Lemma emits_PrintOpenGLErrors (w : World) (Function File : string) (Line : Z) :
  emits (PrintOpenGLErrors w Function File Line) (fun _ => []).
Proof.
  intros t p a q Hp E. rewrite PrintOpenGLErrors_run in E.
  injection E as Ha Hq. subst a q. cbn [calls]. rewrite lifecycle_app, Hp. reflexivity.
Qed.

Lemma emits_CheckedGLCall {A} (w : World) (debug : bool) (x_text file : string)
    (line : Z) (x : M A) (L : A -> list Event) :
  emits x L -> emits (CheckedGLCall w debug x_text file line x) L.
Proof.
  intros Hx. destruct debug; [| exact Hx].
  intros t. unfold CheckedGLCall.
  eapply hoare_emits_bind; [apply emits_PrintOpenGLErrors | intros ?; cbv beta].
  eapply hoare_emits_bind; [apply Hx | intros r].
  eapply hoare_emits_bind; [apply emits_PrintOpenGLErrors | intros ?; cbv beta].
  apply hoare_ret. intros p Hp. rewrite Hp. now rewrite !app_nil_r.
Qed.

Lemma emits_CheckedGLResult {A} (w : World) (debug : bool) (x_text file : string)
    (line : Z) (x : M A) (L : A -> list Event) :
  emits x L -> emits (CheckedGLResult w debug x_text file line x) L.
Proof.
  intros Hx. destruct debug; [| exact Hx].
  intros t. unfold CheckedGLResult.
  eapply hoare_emits_bind; [apply emits_PrintOpenGLErrors | intros ?; cbv beta].
  eapply hoare_emits_tail; [apply Hx |].
  intros r q H. now rewrite app_nil_r in H.
Qed.

Lemma emits_CompileShader (w : World) (path : string) (shaderType : Z) :
  emits (CompileShader w path shaderType)
        (fun shader => [(glCreateShader shaderType, RInt shader)]).
Proof.
  intros t p a q Hp E.
  destruct (w_file w path) as [src |] eqn:Hfile.
  - destruct (Z.eq_dec (compile_status w p shaderType src) 0) as [H0 | H0].
    + rewrite (CompileShader_failure_run w path src shaderType p Hfile H0) in E.
      discriminate E.
    + rewrite (CompileShader_success_run w path src shaderType p Hfile H0) in E.
      injection E as Ha Hq. subst a q. cbn [calls]. unfold compiled.
      rewrite !lifecycle_app, Hp. cbn. now rewrite app_nil_r.
  - unfold CompileShader, LoadShaderFromFile in E. rewrite Hfile in E.
    discriminate E.
Qed.

Lemma emits_resized (window : Z) (sizes : list (Z * Z)) :
  emits (resized window sizes) (fun _ => []).
Proof.
  induction sizes as [| [width height] rest IH]; intros t.
  - apply emits_ret.
  - cbn [resized]. unfold framebuffer_size_callback.
    eapply hoare_emits_bind; [apply emits_call_void | intros ?; cbv beta].
    eapply hoare_emits_tail; [apply IH |].
    intros ? q H. rewrite H. cbn. now rewrite !app_nil_r.
Qed.

Lemma emits_call_glfwPollEvents (w : World) (window : Z) :
  emits (call_glfwPollEvents w window) (fun _ => []).
Proof.
  intros t p a q Hp E. unfold call_glfwPollEvents in E.
  eapply (emits_resized window _ t); [| exact E].
  cbn [log calls]. rewrite lifecycle_app, Hp. cbn. now rewrite app_nil_r.
Qed.

#[local] Hint Resolve emits_ret emits_call_void emits_call_as emits_call_str
  emits_write_cout emits_write_cerr emits_PrintOpenGLErrors emits_CheckedGLCall
  emits_CheckedGLResult emits_CompileShader emits_call_glfwPollEvents : emits.

(** Walk one statement of the program. *)
Ltac walk :=
  eapply hoare_emits_bind; [solve [eauto with emits] | intros ?; cbv beta].

Lemma emits_render_loop (w : World) (file : string) (window : Z) (fuel : nat) :
  emits (render_loop w file window fuel) (fun _ => []).
Proof.
  induction fuel as [| fuel IH]; intros t.
  - intros p a q _ E. discriminate E.
  - cbn [render_loop]. walk. apply hoare_if.
    + do 4 walk.
      eapply hoare_emits_tail; [apply IH |].
      intros ? q H. rewrite H. cbn. now rewrite !app_nil_r.
    + apply hoare_ret. intros p Hp. rewrite Hp. cbn. now rewrite !app_nil_r.
Qed.

#[local] Hint Resolve emits_render_loop : emits.

(** ** Fuel *)

Lemma carries_refl {A} (m : M A) : carries m m.
Proof. now intros p r q E _. Qed.

Lemma carries_bind {A B} (m m' : M A) (k k' : A -> M B) :
  carries m m' -> (forall a, carries (k a) (k' a)) ->
  carries (bind m k) (bind m' k').
Proof.
  intros Hm Hk p r q E Hr. unfold bind in *.
  destruct (m p) as [[a | e |] p'] eqn:Em.
  - rewrite (Hm p (Val a) p' Em) by discriminate. now apply Hk.
  - rewrite (Hm p (Throw e) p' Em) by discriminate. exact E.
  - injection E as Er Eq. subst r. now contradiction Hr.
Qed.

Lemma carries_if {A} (c : bool) (m1 m1' m2 m2' : M A) :
  carries m1 m1' -> carries m2 m2' ->
  carries (if c then m1 else m2) (if c then m1' else m2').
Proof. now destruct c. Qed.

Lemma render_loop_carries (w : World) (file : string) (window : Z) :
  forall fuel fuel' : nat,
    (fuel <= fuel')%nat ->
    carries (render_loop w file window fuel) (render_loop w file window fuel').
Proof.
  induction fuel as [| fuel IH]; intros fuel' Hle.
  - intros p r q E Hr. injection E as Er Eq. subst r. now contradiction Hr.
  - destruct fuel' as [| fuel']; [lia |].
    cbn [render_loop]. apply carries_bind; [apply carries_refl | intros close].
    apply carries_if; [| apply carries_refl].
    do 4 (apply carries_bind; [apply carries_refl | intros ?]).
    apply IH. lia.
Qed.

(** A run of [main] that ended, by a return or by an exception, ends the
    same way with more fuel. *)
Lemma main_carries (w : World) (file : string) (fuel fuel' : nat) :
  (fuel <= fuel')%nat -> carries (main w file fuel) (main w file fuel').
Proof.
  intros Hle. unfold main.
  repeat match goal with
         | |- carries (bind _ _) (bind _ _) => apply carries_bind; [| intros ?]
         | |- carries (if _ then _ else _) (if _ then _ else _) => apply carries_if
         | |- carries (render_loop _ _ _ _) _ => apply render_loop_carries; exact Hle
         | |- carries ?m ?m => apply carries_refl
         end.
Qed.

(** ** [main]: exit statuses and cleanup *)

Lemma main_returns_0_or_minus_1 (w : World) (file : string) (fuel : nat) :
  hoare (fun _ => True) (main w file fuel)
        (fun status _ => status = 0 \/ status = -1).
Proof.
  unfold main.
  repeat first [ apply hoare_ret; intros; auto
               | apply hoare_if
               | apply hoare_skip; intros ? ].
Qed.

Lemma main_initialized_returns_0 (w : World) (file : string) (fuel : nat)
    (status : Z) (q : Proc) :
  glfwInit_answer w <> 0 ->
  window_answer w <> 0 ->
  glewInit_answer w = GLEW_OK ->
  main w file fuel start = (Val status, q) ->
  status = 0.
Proof.
  intros Hinit Hwindow Hglew. apply Z.eqb_neq in Hinit, Hwindow.
  unfold main. step. branch Hinit. do 5 step. branch Hwindow. do 4 step.
  rewrite Hglew. change (negb (GLEW_OK =? GLEW_OK)) with false. cbv iota.
  apply (hoare_run _ (fun s _ => s = 0)).
  repeat (apply hoare_skip; intros ?).
  apply hoare_ret. reflexivity.
Qed.

Lemma main_lifecycle (w : World) (file : string) (fuel : nat) :
  hoare (fun p => lifecycle (calls p) = []) (main w file fuel)
    (fun status q =>
       status = 0 ->
       exists VAO VBO EBO VertexShader FragmentShader ShaderProgram : Z,
         lifecycle (calls q) =
           [(glGenVertexArrays 1, RInt VAO);
            (glGenBuffers 1, RInt VBO);
            (glGenBuffers 1, RInt EBO);
            (glCreateShader GL_VERTEX_SHADER, RInt VertexShader);
            (glCreateShader GL_FRAGMENT_SHADER, RInt FragmentShader);
            (glCreateProgram, RInt ShaderProgram);
            (glDeleteProgram ShaderProgram, RVoid);
            (glDeleteShader FragmentShader, RVoid);
            (glDeleteShader VertexShader, RVoid);
            (glDeleteBuffers 1 EBO, RVoid);
            (glDeleteBuffers 1 VBO, RVoid);
            (glDeleteVertexArrays 1 VAO, RVoid);
            (glfwTerminate, RVoid)]).
Proof.
  unfold main. walk. apply hoare_if.
  { repeat walk. apply hoare_ret. intros p _ H. discriminate H. }
  do 5 walk. apply hoare_if.
  { repeat walk. apply hoare_ret. intros p _ H. discriminate H. }
  do 4 walk. apply hoare_if.
  { repeat walk. apply hoare_ret. intros p _ H. discriminate H. }
  repeat walk.
  apply hoare_ret. intros p Hp _. cbn in Hp.
  do 6 eexists. exact Hp.
Qed.

(** C6.  When [main] returns 0, the calls of the whole run that create or
    release a GPU object or shut the windowing library down are, in order:
    the six creations of the setup (vertex array, vertex buffer, element
    buffer, vertex shader, fragment shader, program), then one release for
    each of the six names, program, fragment shader, vertex shader, element
    buffer, vertex buffer, vertex array, and last [glfwTerminate]. *)
Theorem cleanup_releases_each_handle_once :
  forall (w : World) (file : string) (fuel : nat) (q : Proc),
    main w file fuel start = (Val 0, q) ->
    exists VAO VBO EBO VertexShader FragmentShader ShaderProgram : Z,
      lifecycle (calls q) =
        [(glGenVertexArrays 1, RInt VAO);
         (glGenBuffers 1, RInt VBO);
         (glGenBuffers 1, RInt EBO);
         (glCreateShader GL_VERTEX_SHADER, RInt VertexShader);
         (glCreateShader GL_FRAGMENT_SHADER, RInt FragmentShader);
         (glCreateProgram, RInt ShaderProgram);
         (glDeleteProgram ShaderProgram, RVoid);
         (glDeleteShader FragmentShader, RVoid);
         (glDeleteShader VertexShader, RVoid);
         (glDeleteBuffers 1 EBO, RVoid);
         (glDeleteBuffers 1 VBO, RVoid);
         (glDeleteVertexArrays 1 VAO, RVoid);
         (glfwTerminate, RVoid)].
Proof.
  intros w file fuel q H.
  exact (main_lifecycle w file fuel start 0 q eq_refl H eq_refl).
Qed.

Lemma cleanup_releases_each_handle_once_witness :
  exists VAO VBO EBO VertexShader FragmentShader ShaderProgram : Z,
    lifecycle (calls (snd (main healthy_world "main.cpp" 3 start))) =
      [(glGenVertexArrays 1, RInt VAO);
       (glGenBuffers 1, RInt VBO);
       (glGenBuffers 1, RInt EBO);
       (glCreateShader GL_VERTEX_SHADER, RInt VertexShader);
       (glCreateShader GL_FRAGMENT_SHADER, RInt FragmentShader);
       (glCreateProgram, RInt ShaderProgram);
       (glDeleteProgram ShaderProgram, RVoid);
       (glDeleteShader FragmentShader, RVoid);
       (glDeleteShader VertexShader, RVoid);
       (glDeleteBuffers 1 EBO, RVoid);
       (glDeleteBuffers 1 VBO, RVoid);
       (glDeleteVertexArrays 1 VAO, RVoid);
       (glfwTerminate, RVoid)].
Proof.
  apply (cleanup_releases_each_handle_once healthy_world "main.cpp" 3
           (snd (main healthy_world "main.cpp" 3 start))).
  vm_compute. reflexivity.
Defined.

(** C7.  [main] returns -1 when [glfwInit] fails, when the window cannot
    be created and when [glewInit] fails; once the three have succeeded, a
    status it returns is 0; so it returns no status other than 0 and -1.
    A status returned with some fuel is returned with any larger fuel. *)
Theorem main_exit_status :
  forall (w : World) (file : string) (fuel : nat),
    (glfwInit_answer w = 0 ->
     fst (main w file fuel start) = Val (-1)) /\
    (glfwInit_answer w <> 0 -> window_answer w = 0 ->
     fst (main w file fuel start) = Val (-1)) /\
    (glfwInit_answer w <> 0 -> window_answer w <> 0 ->
     glewInit_answer w <> GLEW_OK ->
     fst (main w file fuel start) = Val (-1)) /\
    (glfwInit_answer w <> 0 -> window_answer w <> 0 ->
     glewInit_answer w = GLEW_OK ->
     forall status : Z,
       fst (main w file fuel start) = Val status -> status = 0) /\
    (forall status : Z,
        fst (main w file fuel start) = Val status ->
        status = 0 \/ status = -1) /\
    (forall (fuel' : nat) (status : Z),
        (fuel <= fuel')%nat ->
        fst (main w file fuel start) = Val status ->
        fst (main w file fuel' start) = Val status).
Proof.
  intros w file fuel.
  split; [| split; [| split; [| split; [| split]]]].
  - intros H. now rewrite main_glfwInit_failure.
  - intros H1 H2. now rewrite main_window_failure.
  - intros H1 H2 H3. now rewrite main_glewInit_failure.
  - intros H1 H2 H3 status H.
    destruct (main w file fuel start) as [r q] eqn:E. cbn in H. subst r.
    exact (main_initialized_returns_0 w file fuel status q H1 H2 H3 E).
  - intros status H.
    destruct (main w file fuel start) as [r q] eqn:E. cbn in H. subst r.
    exact (hoare_run _ _ (main_returns_0_or_minus_1 w file fuel) start status q E).
  - intros fuel' status Hle H.
    destruct (main w file fuel start) as [r q] eqn:E. cbn in H. subst r.
    rewrite (main_carries w file fuel fuel' Hle start (Val status) q E);
      [reflexivity | discriminate].
Qed.

Lemma main_exit_status_witness :
  fst (main no_glfw_world "main.cpp" 1 start) = Val (-1) /\
  fst (main no_window_world "main.cpp" 1 start) = Val (-1) /\
  fst (main no_glew_world "main.cpp" 1 start) = Val (-1) /\
  0 = 0 /\
  (0 = 0 \/ 0 = -1) /\
  fst (main healthy_world "main.cpp" 7 start) = Val 0.
Proof.
  destruct (main_exit_status no_glfw_world "main.cpp" 1) as (A1 & _).
  destruct (main_exit_status no_window_world "main.cpp" 1) as (_ & B2 & _).
  destruct (main_exit_status no_glew_world "main.cpp" 1) as (_ & _ & C3 & _).
  destruct (main_exit_status healthy_world "main.cpp" 3) as (_ & _ & _ & D4 & D5 & D6).
  split; [| split; [| split; [| split; [| split]]]].
  - apply A1. reflexivity.
  - apply B2; [vm_compute; discriminate | reflexivity].
  - apply C3; vm_compute; discriminate.
  - apply D4.
    + vm_compute. discriminate.
    + vm_compute. discriminate.
    + reflexivity.
    + vm_compute. reflexivity.
  - apply D5. vm_compute. reflexivity.
  - apply (D6 7%nat 0); [lia | vm_compute; reflexivity].
Defined.

(** C8, as far as the code goes.  When [glfwInit] fails, [main] writes the
    fixed line ["Failed to initialize GLFW"] and returns -1 after that one
    call: it does not ask the library for a description.  When the window
    cannot be created, it writes ["Failed to create GLFW window"], then
    ["GLFW Error: "] with the description [glfwGetError] gave, shuts the
    library down and returns -1. *)
Theorem main_startup_failure_report :
  forall (w : World) (file : string) (fuel : nat),
    (glfwInit_answer w = 0 ->
     main w file fuel start =
       (Val (-1),
        {| calls := [(glfwInit, RInt 0)];
           cout := "";
           cerr := "Failed to initialize GLFW" ++ endl |})) /\
    (glfwInit_answer w <> 0 -> window_answer w = 0 ->
     main w file fuel start =
       (Val (-1),
        {| calls := window_hints w
                    ++ [(glfwCreateWindow 640 480 "Modern OpenGL", RInt 0);
                        (glfwGetError, RStr (glfw_description w));
                        (glfwTerminate, RVoid)];
           cout := "";
           cerr := "Failed to create GLFW window" ++ endl
                   ++ "GLFW Error: " ++ glfw_description w ++ endl |})).
Proof.
  intros w file fuel. split.
  - apply main_glfwInit_failure.
  - apply main_window_failure.
Qed.

Lemma main_startup_failure_report_witness :
  main no_glfw_world "main.cpp" 1 start =
    (Val (-1),
     {| calls := [(glfwInit, RInt 0)];
        cout := "";
        cerr := "Failed to initialize GLFW" ++ endl |}) /\
  cerr (snd (main no_window_world "main.cpp" 1 start)) =
    ("Failed to create GLFW window" ++ endl
     ++ "GLFW Error: GLX: Failed to create context" ++ endl)%string.
Proof.
  split.
  - apply (proj1 (main_startup_failure_report no_glfw_world "main.cpp" 1)).
    reflexivity.
  - rewrite (proj2 (main_startup_failure_report no_window_world "main.cpp" 1)).
    + reflexivity.
    + vm_compute. discriminate.
    + reflexivity.
Defined.

(** C8 as stated fails for the first of the two failures: in
    [no_glfw_world] the run ends after [glfwInit] with the fixed line on
    [cerr]; the library's description, which [glfwGetError] would give, is
    neither asked for nor printed. *)
Lemma glfwInit_failure_prints_no_description :
  let r := main no_glfw_world "main.cpp" 1 start in
  fst r = Val (-1) /\
  calls (snd r) = [(glfwInit, RInt 0)] /\
  cerr (snd r) = ("Failed to initialize GLFW" ++ endl)%string /\
  c_str (w_str no_glfw_world (calls (snd r)) glfwGetError)
    = "GLX: Failed to create context"%string /\
  contains (c_str (w_str no_glfw_world (calls (snd r)) glfwGetError)) (cerr (snd r))
    = false.
Proof. repeat split. Qed.

(** Runs of [main] that return no status: a shader file that cannot be
    opened and a shader that does not compile end in an uncaught
    [runtime_error]; in the second, the objects created so far, the shader
    included, are not released and the windowing library is not shut
    down. *)
Example main_uncaught_exceptions :
  fst (main no_files_world "main.cpp" 1 start) =
    Throw (runtime_error "Failed to open shader file: shaders/vertex.glsl") /\
  fst (main rejecting_world "main.cpp" 1 start) =
    Throw (runtime_error "Shader compilation failed: ERROR: 0:1: syntax error") /\
  lifecycle (calls (snd (main rejecting_world "main.cpp" 1 start))) =
    [(glGenVertexArrays 1, RInt 1);
     (glGenBuffers 1, RInt 2);
     (glGenBuffers 1, RInt 3);
     (glCreateShader GL_VERTEX_SHADER, RInt 4)].
Proof. repeat split. Qed.

(** * Further properties *)

Lemma bind_Val_run {A B} (m : M A) (k : A -> M B) (p p' : Proc) (a : A) :
  m p = (Val a, p') -> bind m k p = k a p'.
Proof. unfold bind. now intros ->. Qed.


(** ** The error names *)

(** X1.  A name other than UNKNOWN_ERROR on a line of
    [PrintOpenGLErrors] identifies the error code: each of the six names
    is given to its own code only. *)
Theorem ErrorString_identifies_code :
  forall code : Z,
    (ErrorString code = "INVALID_ENUM"%string -> code = GL_INVALID_ENUM) /\
    (ErrorString code = "INVALID_VALUE"%string -> code = GL_INVALID_VALUE) /\
    (ErrorString code = "INVALID_OPERATION"%string -> code = GL_INVALID_OPERATION) /\
    (ErrorString code = "OUT_OF_MEMORY"%string -> code = GL_OUT_OF_MEMORY) /\
    (ErrorString code = "INVALID_FRAMEBUFFER_OPERATION"%string ->
     code = GL_INVALID_FRAMEBUFFER_OPERATION) /\
    (ErrorString code = "CONTEXT_LOST"%string -> code = GL_CONTEXT_LOST).
Proof.
  intros code. unfold ErrorString.
  destruct (Z.eqb_spec code GL_INVALID_ENUM);
    [repeat split; intros H; (assumption || discriminate H) |].
  destruct (Z.eqb_spec code GL_INVALID_VALUE);
    [repeat split; intros H; (assumption || discriminate H) |].
  destruct (Z.eqb_spec code GL_INVALID_OPERATION);
    [repeat split; intros H; (assumption || discriminate H) |].
  destruct (Z.eqb_spec code GL_OUT_OF_MEMORY);
    [repeat split; intros H; (assumption || discriminate H) |].
  destruct (Z.eqb_spec code GL_INVALID_FRAMEBUFFER_OPERATION);
    [repeat split; intros H; (assumption || discriminate H) |].
  destruct (Z.eqb_spec code GL_CONTEXT_LOST);
    [repeat split; intros H; (assumption || discriminate H) |].
  repeat split; intros H; discriminate H.
Qed.

Lemma ErrorString_identifies_code_witness :
  GLenum (0x0505 + 2 ^ 32) = GL_OUT_OF_MEMORY.
Proof.
  apply (ErrorString_identifies_code (GLenum (0x0505 + 2 ^ 32))).
  reflexivity.
Defined.

(** ** A checked call *)

Lemma CheckedGLCall_debug_void_run (w : World) (x_text file : string) (line : Z)
    (c : Call) (p : Proc) :
  CheckedGLCall w true x_text file line (call_void c) p =
    (Val tt,
     {| calls := calls p
                 ++ [(glGetError, RInt (GLenum (w_int w (calls p) glGetError)));
                     (c, RVoid);
                     (glGetError,
                      RInt (GLenum
                              (w_int w
                                 (calls p
                                  ++ [(glGetError,
                                       RInt (GLenum (w_int w (calls p) glGetError)));
                                      (c, RVoid)])
                                 glGetError)))];
        cout := cout p;
        cerr :=
          if GLenum
               (w_int w
                  (calls p
                   ++ [(glGetError, RInt (GLenum (w_int w (calls p) glGetError)));
                       (c, RVoid)])
                  glGetError) =? GL_NO_ERROR
          then
            if GLenum (w_int w (calls p) glGetError) =? GL_NO_ERROR then cerr p
            else cerr p ++ error_line file line (">>BEFORE<< " ++ x_text)
                             (GLenum (w_int w (calls p) glGetError))
          else
            (if GLenum (w_int w (calls p) glGetError) =? GL_NO_ERROR then cerr p
             else cerr p ++ error_line file line (">>BEFORE<< " ++ x_text)
                              (GLenum (w_int w (calls p) glGetError)))
            ++ error_line file line x_text
                 (GLenum
                    (w_int w
                       (calls p
                        ++ [(glGetError, RInt (GLenum (w_int w (calls p) glGetError)));
                            (c, RVoid)])
                       glGetError)) |}).
Proof.
  unfold CheckedGLCall.
  rewrite (bind_Val_run _ _ _ _ _ (PrintOpenGLErrors_run w _ file line p)).
  rewrite step_call_void. unfold log. cbn [calls cout cerr].
  rewrite (bind_Val_run _ _ _ _ _ (PrintOpenGLErrors_run w x_text file line _)).
  cbn [calls cout cerr]. unfold ret, error_line.
  rewrite <- !app_assoc. cbn [app]. reflexivity.
Qed.

(** X2.  In debug mode [CheckedGLCall] around a call that returns nothing
    makes three library calls, [glGetError], the call, [glGetError], and
    writes at most two lines: an error found before the call under the
    label [">>BEFORE<< "] followed by the text of the call, then an error
    found after it under the text of the call alone.  Nothing goes to
    [cout] and the form returns. *)
Theorem CheckedGLCall_debug_void_call :
  forall (w : World) (x_text file : string) (line : Z) (c : Call) (p : Proc),
    let before := GLenum (w_int w (calls p) glGetError) in
    let called := calls p ++ [(glGetError, RInt before); (c, RVoid)] in
    let after := GLenum (w_int w called glGetError) in
    let cerr1 :=
      if before =? GL_NO_ERROR then cerr p
      else (cerr p ++ error_line file line (">>BEFORE<< " ++ x_text) before)%string in
    CheckedGLCall w true x_text file line (call_void c) p =
      (Val tt,
       {| calls := called ++ [(glGetError, RInt after)];
          cout := cout p;
          cerr := if after =? GL_NO_ERROR then cerr1
                  else cerr1 ++ error_line file line x_text after |}).
Proof.
  intros w x_text file line c p before called after cerr1.
  rewrite CheckedGLCall_debug_void_run.
  subst before called after cerr1.
  rewrite <- !app_assoc. reflexivity.
Qed.

(** X13.  With a driver whose error flag is clear right after it was
    queried, the check that opens a [CheckedGLCall] finds nothing when the
    statement before it was a [CheckedGLCall] too: the second form queries
    a clean flag, makes its call, and writes at most the one line that
    names its own call. *)
Theorem CheckedGLCall_after_CheckedGLCall :
  forall (w : World),
    (forall (t : list Event) (r : Ret),
        GLenum (w_int w (t ++ [(glGetError, r)]) glGetError) = GL_NO_ERROR) ->
    forall (x_text1 x_text2 file : string) (line1 line2 : Z) (c1 c2 : Call)
           (p : Proc),
      let p1 := snd (CheckedGLCall w true x_text1 file line1 (call_void c1) p) in
      let called := calls p1 ++ [(glGetError, RInt GL_NO_ERROR); (c2, RVoid)] in
      let after := GLenum (w_int w called glGetError) in
      CheckedGLCall w true x_text2 file line2 (call_void c2) p1 =
        (Val tt,
         {| calls := called ++ [(glGetError, RInt after)];
            cout := cout p1;
            cerr := if after =? GL_NO_ERROR then cerr p1
                    else cerr p1 ++ error_line file line2 x_text2 after |}).
Proof.
  intros w Hclear x_text1 x_text2 file line1 line2 c1 c2 p p1 called after.
  assert (Hbefore : GLenum (w_int w (calls p1) glGetError) = GL_NO_ERROR).
  { unfold p1. rewrite CheckedGLCall_debug_void_run. cbn [snd calls].
    change [(glGetError, RInt (GLenum (w_int w (calls p) glGetError)));
            (c1, RVoid);
            (glGetError, ?r)]
      with ([(glGetError, RInt (GLenum (w_int w (calls p) glGetError)));
             (c1, RVoid)] ++ [(glGetError, r)]).
    rewrite app_assoc. apply Hclear. }
  rewrite CheckedGLCall_debug_void_run. rewrite !Hbefore.
  change (GL_NO_ERROR =? GL_NO_ERROR) with true. cbv iota.
  subst called after. rewrite <- !app_assoc. reflexivity.
Qed.

Lemma scripted_flag_clear (s : Script) (t : list Event) (r : Ret) :
  s_raises s glGetError = GL_NO_ERROR ->
  GLenum (w_int (scripted s) (t ++ [(glGetError, r)]) glGetError) = GL_NO_ERROR.
Proof.
  intros H. cbn [w_int scripted]. unfold last_call. rewrite last_last.
  cbn [fst]. rewrite H. reflexivity.
Defined.

Lemma CheckedGLCall_after_CheckedGLCall_witness :
  CheckedGLCall misused_world true "glUseProgram(ShaderProgram)" "main.cpp" 198
      (call_void (glUseProgram 6))
      (snd (CheckedGLCall misused_world true "glLinkProgram(ShaderProgram)"
              "main.cpp" 197 (call_void (glLinkProgram 6)) start)) =
    (Val tt,
     {| calls := [(glGetError, RInt 0); (glLinkProgram 6, RVoid); (glGetError, RInt 0);
                  (glGetError, RInt 0); (glUseProgram 6, RVoid);
                  (glGetError, RInt GL_INVALID_VALUE)];
        cout := "";
        cerr := "OpenGL Error in main.cpp at line 198 calling function glUseProgram(ShaderProgram): INVALID_VALUE"
                ++ endl |}).
Proof.
  rewrite (CheckedGLCall_after_CheckedGLCall misused_world).
  - reflexivity.
  - intros t r. apply scripted_flag_clear. reflexivity.
Defined.

(** ** Resizing *)

Lemma resized_run (window : Z) (sizes : list (Z * Z)) (p : Proc) :
  resized window sizes p =
    (Val tt,
     {| calls := calls p
                 ++ map (fun size => (glViewport 0 0 (fst size) (snd size), RVoid)) sizes;
        cout := cout p;
        cerr := cerr p |}).
Proof.
  revert p. induction sizes as [| [width height] rest IH]; intros p.
  - cbn. rewrite app_nil_r. now destruct p.
  - cbn [resized]. unfold framebuffer_size_callback.
    rewrite step_call_void. rewrite IH. unfold log. cbn [calls cout cerr map fst snd].
    now rewrite <- app_assoc.
Qed.

Lemma glfwPollEvents_run (w : World) (window : Z) (p : Proc) :
  call_glfwPollEvents w window p =
    (Val tt,
     {| calls := calls p
                 ++ (glfwPollEvents, RResized (w_resize w (calls p)))
                    :: map (fun size => (glViewport 0 0 (fst size) (snd size), RVoid))
                         (w_resize w (calls p));
        cout := cout p;
        cerr := cerr p |}).
Proof.
  unfold call_glfwPollEvents. rewrite resized_run. unfold log.
  cbn [calls cout cerr]. now rewrite <- app_assoc.
Qed.


(** ** [CompileShader] on the failure path *)

(** X4.  When compilation fails, [CompileShader] fetches the info log into
    the 512-byte buffer, then asks for the length of the log of the same
    shader (the name survives the passage through the [GLint] parameter of
    [PrintShaderInfoLog]) and, when the length is positive, fetches the log
    again into a buffer of that size and prints it on [cout] under the
    heading ["Shader Info Log:"]; [cerr] is untouched.  That is the state in
    which the exception leaves. *)
Theorem CompileShader_failure_state :
  forall (w : World) (path src : string) (shaderType : Z) (p : Proc),
    w_file w path = Some src ->
    compile_status w p shaderType src = 0 ->
    let shader := created_shader w p shaderType in
    let fetched :=
      compiled w p shaderType src
      ++ [(glGetShaderiv shader GL_COMPILE_STATUS, RInt 0);
          (glGetShaderInfoLog shader 512, RStr (fixed_buffer_log w p shaderType src))] in
    let query := glGetShaderiv shader GL_INFO_LOG_LENGTH in
    let InfoLogLength := int (w_int w fetched query) in
    let InfoLog :=
      substring 0 (Z.to_nat (InfoLogLength - 1))
        (c_str (w_str w (fetched ++ [(query, RInt InfoLogLength)])
                  (glGetShaderInfoLog shader InfoLogLength))) in
    snd (CompileShader w path shaderType p) =
      if 0 <? InfoLogLength then
        {| calls := fetched
                    ++ [(query, RInt InfoLogLength);
                        (glGetShaderInfoLog shader InfoLogLength, RStr InfoLog)];
           cout := cout p ++ ("Shader Info Log:" ++ endl ++ InfoLog ++ endl);
           cerr := cerr p |}
      else
        {| calls := fetched ++ [(query, RInt InfoLogLength)];
           cout := cout p;
           cerr := cerr p |}.
Proof.
  intros w path src shaderType p Hfile Hstatus shader fetched query InfoLogLength
    InfoLog.
  rewrite (CompileShader_failure_run w path src shaderType p Hfile Hstatus).
  rewrite PrintShaderInfoLog_run. cbn [snd calls cout cerr].
  rewrite PrintShaderInfoLog_of_created_shader.
  fold shader. fold fetched. fold query. fold InfoLogLength. fold InfoLog.
  destruct (0 <? InfoLogLength); [| reflexivity].
  now rewrite <- app_assoc.
Qed.

Lemma CompileShader_failure_state_witness :
  snd (CompileShader rejecting_world "shaders/vertex.glsl" GL_VERTEX_SHADER start) =
    {| calls := [(glCreateShader GL_VERTEX_SHADER, RInt 1);
                 (glShaderSource 1 1
                    "in vec2 position; void main() { gl_Position = vec4(position, 0.0, 1.0); }",
                  RVoid);
                 (glCompileShader 1, RVoid);
                 (glGetShaderiv 1 GL_COMPILE_STATUS, RInt 0);
                 (glGetShaderInfoLog 1 512, RStr "ERROR: 0:1: syntax error");
                 (glGetShaderiv 1 GL_INFO_LOG_LENGTH, RInt 25);
                 (glGetShaderInfoLog 1 25, RStr "ERROR: 0:1: syntax error")];
       cout := "Shader Info Log:" ++ endl ++ "ERROR: 0:1: syntax error" ++ endl;
       cerr := "" |}.
Proof.
  rewrite (CompileShader_failure_state rejecting_world "shaders/vertex.glsl"
             "in vec2 position; void main() { gl_Position = vec4(position, 0.0, 1.0); }"
             GL_VERTEX_SHADER start); reflexivity.
Defined.

(** ** [main]: the extension loader *)

(** X5.  When [glewInit] fails, after the window was created and its
    context made current, [main] writes ["GLEW Error: "] with the text of
    [glewGetErrorString] for the code [glewInit] returned, shuts the
    windowing library down and returns -1; nothing else is written and no
    GPU object was created. *)
Theorem main_glewInit_failure_report :
  forall (w : World) (file : string) (fuel : nat),
    glfwInit_answer w <> 0 ->
    window_answer w <> 0 ->
    glewInit_answer w <> GLEW_OK ->
    main w file fuel start =
      (Val (-1),
       {| calls := context_current w
                   ++ [(glewInit, RInt (glewInit_answer w));
                       (glewGetErrorString (glewInit_answer w),
                        RStr (glew_description w));
                       (glfwTerminate, RVoid)];
          cout := "";
          cerr := "GLEW Error: " ++ glew_description w ++ endl |}).
Proof. intros w file fuel. apply main_glewInit_failure. Qed.

Lemma main_glewInit_failure_report_witness :
  main no_glew_world "main.cpp" 1 start =
    (Val (-1),
     {| calls := [(glfwInit, RInt 1);
                  (glfwWindowHint GLFW_CONTEXT_VERSION_MAJOR 3, RVoid);
                  (glfwWindowHint GLFW_CONTEXT_VERSION_MINOR 3, RVoid);
                  (glfwWindowHint GLFW_OPENGL_PROFILE GLFW_OPENGL_CORE_PROFILE, RVoid);
                  (glfwWindowHint GLFW_OPENGL_FORWARD_COMPAT GL_TRUE, RVoid);
                  (glfwCreateWindow 640 480 "Modern OpenGL", RInt 0x5580);
                  (glfwMakeContextCurrent 0x5580, RVoid);
                  (glfwSetFramebufferSizeCallback 0x5580, RVoid);
                  (set_glewExperimental GL_TRUE, RVoid);
                  (glewInit, RInt 1);
                  (glewGetErrorString 1, RStr "Missing GL version");
                  (glfwTerminate, RVoid)];
        cout := "";
        cerr := "GLEW Error: Missing GL version" ++ endl |}).
Proof.
  rewrite (main_glewInit_failure_report no_glew_world "main.cpp" 1).
  - reflexivity.
  - vm_compute. discriminate.
  - vm_compute. discriminate.
  - vm_compute. discriminate.
Defined.

(** ** Computations that always return *)

Lemma plain_ret {A} (a : A) : plain (ret a).
Proof. intros p. now exists a, p. Qed.

Lemma plain_bind {A B} (m : M A) (k : A -> M B) :
  plain m -> (forall a, plain (k a)) -> plain (bind m k).
Proof.
  intros Hm Hk p. destruct (Hm p) as (a & p' & E).
  rewrite (bind_Val_run _ _ _ _ _ E). apply Hk.
Qed.

Lemma plain_if {A} (c : bool) (m1 m2 : M A) :
  plain m1 -> plain m2 -> plain (if c then m1 else m2).
Proof. now destruct c. Qed.

Lemma plain_call_void (c : Call) : plain (call_void c).
Proof. intros p. eexists. eexists. reflexivity. Qed.

Lemma plain_call_as (w : World) (ty : Z -> Z) (c : Call) : plain (call_as w ty c).
Proof. intros p. eexists. eexists. reflexivity. Qed.

Lemma plain_call_str (w : World) (c : Call) : plain (call_str w c).
Proof. intros p. eexists. eexists. reflexivity. Qed.

Lemma plain_write_cout (s : string) : plain (write_cout s).
Proof. intros p. eexists. eexists. reflexivity. Qed.

Lemma plain_write_cerr (s : string) : plain (write_cerr s).
Proof. intros p. eexists. eexists. reflexivity. Qed.

Lemma plain_PrintOpenGLErrors (w : World) (Function File : string) (Line : Z) :
  plain (PrintOpenGLErrors w Function File Line).
Proof. intros p. rewrite PrintOpenGLErrors_run. eexists. eexists. reflexivity. Qed.

Lemma plain_CheckedGLCall {A} (w : World) (debug : bool) (x_text file : string)
    (line : Z) (x : M A) :
  plain x -> plain (CheckedGLCall w debug x_text file line x).
Proof.
  intros Hx. destruct debug; [| exact Hx]. unfold CheckedGLCall.
  apply plain_bind; [apply plain_PrintOpenGLErrors | intros _].
  apply plain_bind; [exact Hx | intros r].
  apply plain_bind; [apply plain_PrintOpenGLErrors | intros _].
  apply plain_ret.
Qed.

Lemma plain_CheckedGLResult {A} (w : World) (debug : bool) (x_text file : string)
    (line : Z) (x : M A) :
  plain x -> plain (CheckedGLResult w debug x_text file line x).
Proof.
  intros Hx. destruct debug; [| exact Hx]. unfold CheckedGLResult.
  apply plain_bind; [apply plain_PrintOpenGLErrors | intros _; exact Hx].
Qed.

Lemma plain_PrintShaderInfoLog (w : World) (Shader : Z) :
  plain (PrintShaderInfoLog w Shader).
Proof. intros p. rewrite PrintShaderInfoLog_run. eexists. eexists. reflexivity. Qed.

Lemma plain_call_glfwPollEvents (w : World) (window : Z) :
  plain (call_glfwPollEvents w window).
Proof.
  intros p. rewrite glfwPollEvents_run. eexists. eexists. reflexivity.
Qed.

Create HintDb plain.

#[local] Hint Resolve plain_ret plain_call_void plain_call_as plain_call_str
  plain_write_cout plain_write_cerr plain_PrintOpenGLErrors plain_CheckedGLCall
  plain_CheckedGLResult plain_PrintShaderInfoLog plain_call_glfwPollEvents : plain.

(** A step that always returns is followed by the rest, whatever the
    outcome of the whole. *)
Lemma bind_inv_plain {A B} (m : M A) (k : A -> M B) (p q : Proc) (r : Res B) :
  plain m -> bind m k p = (r, q) ->
  exists a p', m p = (Val a, p') /\ k a p' = (r, q).
Proof.
  intros Hm E. destruct (Hm p) as (a & p' & Em).
  rewrite (bind_Val_run _ _ _ _ _ Em) in E. now exists a, p'.
Qed.

(** ** Rules for [shows] *)

Lemma view_app (keep : Call -> bool) (t u : list Event) :
  view keep (t ++ u) = view keep t ++ view keep u.
Proof. unfold view. apply filter_app. Qed.

Lemma hoare_shows_bind {A B} (keep : Call -> bool) (t : list Event) (m : M A)
    (L : A -> list Event) (k : A -> M B) (Q : B -> Proc -> Prop) :
  shows keep m L ->
  (forall a, hoare (fun p => view keep (calls p) = t ++ L a) (k a) Q) ->
  hoare (fun p => view keep (calls p) = t) (bind m k) Q.
Proof. intros Hm Hk. eapply hoare_bind; [apply Hm | exact Hk]. Qed.

Section Shows.

Variable keep : Call -> bool.

(** The error queries are not part of the view. *)
Hypothesis keep_glGetError : keep glGetError = false.

Lemma shows_ret {A} (a : A) : shows keep (ret a) (fun _ => []).
Proof. intros t. apply hoare_ret. intros p Hp. now rewrite app_nil_r. Qed.

Lemma shows_call_void (c : Call) :
  shows keep (call_void c) (fun _ => view keep [(c, RVoid)]).
Proof.
  intros t p a q Hp E. injection E as Ha Hq. subst a q. cbn [log calls].
  now rewrite view_app, Hp.
Qed.

Lemma shows_call_as (w : World) (ty : Z -> Z) (c : Call) :
  shows keep (call_as w ty c) (fun r => view keep [(c, RInt r)]).
Proof.
  intros t p a q Hp E. injection E as Ha Hq. subst a q. cbn [log calls].
  now rewrite view_app, Hp.
Qed.

Lemma shows_call_str (w : World) (c : Call) :
  shows keep (call_str w c) (fun s => view keep [(c, RStr s)]).
Proof.
  intros t p a q Hp E. injection E as Ha Hq. subst a q. cbn [log calls].
  now rewrite view_app, Hp.
Qed.

Lemma shows_write_cout (s : string) : shows keep (write_cout s) (fun _ => []).
Proof.
  intros t p a q Hp E. injection E as Ha Hq. subst a q. cbn [calls].
  now rewrite app_nil_r.
Qed.

Lemma shows_write_cerr (s : string) : shows keep (write_cerr s) (fun _ => []).
Proof.
  intros t p a q Hp E. injection E as Ha Hq. subst a q. cbn [calls].
  now rewrite app_nil_r.
Qed.

Lemma shows_PrintOpenGLErrors (w : World) (Function File : string) (Line : Z) :
  shows keep (PrintOpenGLErrors w Function File Line) (fun _ => []).
Proof.
  intros t p a q Hp E. rewrite PrintOpenGLErrors_run in E.
  injection E as Ha Hq. subst a q. cbn [calls].
  rewrite view_app, Hp. unfold view. cbn [filter fst].
  now rewrite keep_glGetError.
Qed.

Lemma shows_CheckedGLCall {A} (w : World) (debug : bool) (x_text file : string)
    (line : Z) (x : M A) (L : A -> list Event) :
  shows keep x L -> shows keep (CheckedGLCall w debug x_text file line x) L.
Proof.
  intros Hx. destruct debug; [| exact Hx].
  intros t. unfold CheckedGLCall.
  eapply hoare_shows_bind; [apply shows_PrintOpenGLErrors | intros ?; cbv beta].
  eapply hoare_shows_bind; [apply Hx | intros r].
  eapply hoare_shows_bind; [apply shows_PrintOpenGLErrors | intros ?; cbv beta].
  apply hoare_ret. intros p Hp. rewrite Hp. now rewrite !app_nil_r.
Qed.

Lemma shows_CheckedGLResult {A} (w : World) (debug : bool) (x_text file : string)
    (line : Z) (x : M A) (L : A -> list Event) :
  shows keep x L -> shows keep (CheckedGLResult w debug x_text file line x) L.
Proof.
  intros Hx. destruct debug; [| exact Hx].
  intros t. unfold CheckedGLResult.
  eapply hoare_shows_bind; [apply shows_PrintOpenGLErrors | intros ?; cbv beta].
  intros p r q Hp E. rewrite app_nil_r in Hp. exact (Hx t p r q Hp E).
Qed.

(** The window events are not part of the view either. *)
Hypothesis keep_glfwPollEvents : keep glfwPollEvents = false.
Hypothesis keep_glViewport :
  forall x y width height : Z, keep (glViewport x y width height) = false.

Lemma view_viewports (sizes : list (Z * Z)) :
  view keep (map (fun size => (glViewport 0 0 (fst size) (snd size), RVoid)) sizes)
    = [].
Proof.
  induction sizes as [| size rest IH]; [reflexivity |].
  unfold view in *. cbn [map filter fst]. now rewrite keep_glViewport.
Qed.

Lemma shows_call_glfwPollEvents (w : World) (window : Z) :
  shows keep (call_glfwPollEvents w window) (fun _ => []).
Proof.
  intros t p a q Hp E. rewrite glfwPollEvents_run in E.
  injection E as Ha Hq. subst a q. cbn [calls].
  rewrite view_app, Hp.
  change ((glfwPollEvents, RResized (w_resize w (calls p))) :: ?l)
    with ([(glfwPollEvents, RResized (w_resize w (calls p)))] ++ l).
  rewrite view_app, view_viewports. unfold view. cbn [filter fst].
  now rewrite keep_glfwPollEvents.
Qed.

End Shows.

Create HintDb shows.

#[local] Hint Resolve shows_ret shows_call_void shows_call_as shows_call_str
  shows_write_cout shows_write_cerr shows_PrintOpenGLErrors shows_CheckedGLCall
  shows_CheckedGLResult shows_call_glfwPollEvents : shows.
#[local] Hint Extern 0 (_ = false) => reflexivity : shows.

(** ** The render loop *)

(** From a step that returned, what it added to the view of the frame
    calls. *)
Ltac frame_fact E :=
  match type of E with
  | ?m ?p = (Val ?a, ?q) =>
      let F := fresh "F" in
      eassert (F : shows frame_call m _) by (eauto with shows);
      specialize (F _ p a q eq_refl E); cbv beta in F
  end.

Lemma render_loop_frames_run (w : World) (file : string) (window : Z) :
  forall (fuel : nat) (p : Proc) (r : Res unit) (q : Proc),
    render_loop w file window fuel p = (r, q) ->
    exists (k : nat) (close : list Event),
      view frame_call (calls q) =
        view frame_call (calls p) ++ List.concat (repeat (frame window) k) ++ close /\
      ((r = Val tt /\ (k < fuel)%nat /\
        exists c : Z, c <> 0 /\ close = [(glfwWindowShouldClose window, RInt c)]) \/
       (r = OutOfFuel /\ k = fuel /\ close = [])).
Proof.
  induction fuel as [| fuel IH]; intros p r q H.
  - injection H as Hr Hq. subst r q. exists 0%nat, [].
    split; [cbn; now rewrite app_nil_r | right; auto].
  - cbn [render_loop] in H.
    apply bind_inv_plain in H; [| auto with plain].
    destruct H as (close & p1 & E1 & H). frame_fact E1.
    destruct (Z.eqb_spec close 0) as [Hc | Hc].
    + subst close.
      apply bind_inv_plain in H; [| auto with plain].
      destruct H as (? & p2 & E2 & H). frame_fact E2.
      apply bind_inv_plain in H; [| auto with plain].
      destruct H as (? & p3 & E3 & H). frame_fact E3.
      apply bind_inv_plain in H; [| auto with plain].
      destruct H as (? & p4 & E4 & H). frame_fact E4.
      apply bind_inv_plain in H; [| auto with plain].
      destruct H as (? & p5 & E5 & H). frame_fact E5.
      destruct (IH p5 r q H) as (k & tail & Hview & Hend).
      exists (S k), tail. split.
      * rewrite Hview, F3, F2, F1, F0, F. cbn [repeat List.concat]. unfold frame.
        rewrite <- !app_assoc. reflexivity.
      * destruct Hend as [(Hr & Hk & Hclose) | (Hr & Hk & Hclose)].
        -- left. split; [exact Hr | split; [lia | exact Hclose]].
        -- right. split; [exact Hr | split; [lia | exact Hclose]].
    + injection H as Hr Hq. subst r q. exists 0%nat, [(glfwWindowShouldClose window, RInt close)].
      split.
      * rewrite F. reflexivity.
      * left. split; [reflexivity | split; [lia |]]. now exists close.
Qed.

(** X6.  Whatever the libraries answer, a run of the render loop is a
    number of whole frames, each one the test of the close flag answering
    0, [glClear] of the colour and depth buffers, [glDrawElements] of one
    triangle of three unsigned indices, and [glfwSwapBuffers], in that
    order.  It ends by returning, at the first test of the close flag that
    does not answer 0, or with the fuel used up after as many frames as
    there was fuel; it never throws. *)
Theorem render_loop_frames :
  forall (w : World) (file : string) (window : Z) (fuel : nat) (p : Proc)
         (r : Res unit) (q : Proc),
    render_loop w file window fuel p = (r, q) ->
    exists (k : nat) (close : list Event),
      view frame_call (calls q) =
        view frame_call (calls p) ++ List.concat (repeat (frame window) k) ++ close /\
      ((r = Val tt /\ (k < fuel)%nat /\
        exists c : Z, c <> 0 /\ close = [(glfwWindowShouldClose window, RInt c)]) \/
       (r = OutOfFuel /\ k = fuel /\ close = [])).
Proof. intros w file window. apply render_loop_frames_run. Qed.

Lemma render_loop_frames_witness :
  exists (k : nat) (close : list Event),
    view frame_call (calls (snd (render_loop healthy_world "main.cpp" 0x5580 5 start))) =
      view frame_call (calls start) ++ List.concat (repeat (frame 0x5580) k) ++ close /\
    ((Val tt = Val tt /\ (k < 5)%nat /\
      exists c : Z, c <> 0 /\ close = [(glfwWindowShouldClose 0x5580, RInt c)]) \/
     (Val tt = @OutOfFuel unit /\ k = 5%nat /\ close = [])).
Proof.
  apply (render_loop_frames healthy_world "main.cpp" 0x5580 5 start (Val tt)
           (snd (render_loop healthy_world "main.cpp" 0x5580 5 start))).
  vm_compute. reflexivity.
Defined.

(** ** What [main] writes *)

Lemma main_returns_0_initialized (w : World) (file : string) (fuel : nat)
    (q : Proc) :
  main w file fuel start = (Val 0, q) ->
  glfwInit_answer w <> 0 /\ window_answer w <> 0 /\ glewInit_answer w = GLEW_OK.
Proof.
  intros H.
  destruct (Z.eq_dec (glfwInit_answer w) 0) as [H1 | H1].
  { rewrite (main_glfwInit_failure w file fuel H1) in H. discriminate H. }
  destruct (Z.eq_dec (window_answer w) 0) as [H2 | H2].
  { rewrite (main_window_failure w file fuel H1 H2) in H. discriminate H. }
  destruct (Z.eq_dec (glewInit_answer w) GLEW_OK) as [H3 | H3].
  { auto. }
  rewrite (main_glewInit_failure w file fuel H1 H2 H3) in H. discriminate H.
Qed.

Section Keeps.

Variable w : World.
Variable X : Type.
Variable f : Proc -> X.

(** The observation does not look at the trace, *)
Hypothesis f_calls :
  forall (p : Proc) (t : list Event),
    f {| calls := t; cout := cout p; cerr := cerr p |} = f p.

(** and the error checks leave it alone. *)
Hypothesis f_check :
  forall (Function File : string) (Line : Z),
    keeps f (PrintOpenGLErrors w Function File Line).

Lemma keeps_ret {A} (a : A) : keeps f (ret a).
Proof. intros x. apply hoare_ret. auto. Qed.

Lemma keeps_bind {A B} (m : M A) (k : A -> M B) :
  keeps f m -> (forall a, keeps f (k a)) -> keeps f (bind m k).
Proof. intros Hm Hk x. eapply hoare_bind; [apply Hm | intros a; apply Hk]. Qed.

Lemma keeps_if {A} (c : bool) (m1 m2 : M A) :
  keeps f m1 -> keeps f m2 -> keeps f (if c then m1 else m2).
Proof. now destruct c. Qed.

Lemma keeps_call_void (c : Call) : keeps f (call_void c).
Proof.
  intros x p a q Hp E. injection E as Ha Hq. subst a q.
  unfold log. now rewrite f_calls.
Qed.

Lemma keeps_call_as (ty : Z -> Z) (c : Call) : keeps f (call_as w ty c).
Proof.
  intros x p a q Hp E. injection E as Ha Hq. subst a q.
  unfold log. now rewrite f_calls.
Qed.

Lemma keeps_CheckedGLCall {A} (debug : bool) (x_text file : string) (line : Z)
    (x : M A) :
  keeps f x -> keeps f (CheckedGLCall w debug x_text file line x).
Proof.
  intros Hx. destruct debug; [| exact Hx]. unfold CheckedGLCall.
  apply keeps_bind; [apply f_check | intros _].
  apply keeps_bind; [exact Hx | intros r].
  apply keeps_bind; [apply f_check | intros _].
  apply keeps_ret.
Qed.

Lemma keeps_CheckedGLResult {A} (debug : bool) (x_text file : string) (line : Z)
    (x : M A) :
  keeps f x -> keeps f (CheckedGLResult w debug x_text file line x).
Proof.
  intros Hx. destruct debug; [| exact Hx]. unfold CheckedGLResult.
  apply keeps_bind; [apply f_check | intros _; exact Hx].
Qed.

(** When it returns, [CompileShader] has made calls and nothing else. *)
Lemma keeps_CompileShader (path : string) (shaderType : Z) :
  keeps f (CompileShader w path shaderType).
Proof.
  intros x p a q Hp E.
  destruct (w_file w path) as [src |] eqn:Hfile.
  - destruct (Z.eq_dec (compile_status w p shaderType src) 0) as [H0 | H0].
    + rewrite (CompileShader_failure_run w path src shaderType p Hfile H0) in E.
      discriminate E.
    + rewrite (CompileShader_success_run w path src shaderType p Hfile H0) in E.
      injection E as Ha Hq. subst a q. now rewrite f_calls.
  - unfold CompileShader, LoadShaderFromFile in E. rewrite Hfile in E.
    discriminate E.
Qed.

Lemma keeps_call_glfwPollEvents (window : Z) :
  keeps f (call_glfwPollEvents w window).
Proof.
  intros x p a q Hp E. rewrite glfwPollEvents_run in E.
  injection E as Ha Hq. subst a q. now rewrite f_calls.
Qed.

Lemma keeps_render_loop (file : string) (window : Z) (fuel : nat) :
  keeps f (render_loop w file window fuel).
Proof.
  induction fuel as [| fuel IH].
  - intros x p a q _ E. discriminate E.
  - cbn [render_loop].
    apply keeps_bind; [apply keeps_call_as | intros close].
    apply keeps_if; [| apply keeps_ret].
    apply keeps_bind; [apply keeps_CheckedGLCall, keeps_call_void | intros _].
    apply keeps_bind; [apply keeps_CheckedGLCall, keeps_call_void | intros _].
    apply keeps_bind; [apply keeps_call_void | intros _].
    apply keeps_bind; [apply keeps_call_glfwPollEvents | intros _].
    exact IH.
Qed.

(** Walk the statements of [main] that follow the print of the version. *)
Ltac keep_walk :=
  repeat match goal with
    | |- keeps f (bind _ _) => apply keeps_bind; [| intros ?]
    | |- keeps f (ret _) => apply keeps_ret
    | |- keeps f (CheckedGLCall _ _ _ _ _ _) => apply keeps_CheckedGLCall
    | |- keeps f (CheckedGLResult _ _ _ _ _ _) => apply keeps_CheckedGLResult
    | |- keeps f (call_void _) => apply keeps_call_void
    | |- keeps f (call_as _ _ _) => apply keeps_call_as
    | |- keeps f (CompileShader _ _ _) => apply keeps_CompileShader
    | |- keeps f (render_loop _ _ _ _) => apply keeps_render_loop
    end.

(** Once the three initializations have succeeded, a run of [main] that
    returns leaves the observation as the print of the version left it. *)
Lemma main_keeps (file : string) (fuel : nat) (status : Z) (q : Proc) :
  glfwInit_answer w <> 0 ->
  window_answer w <> 0 ->
  glewInit_answer w = GLEW_OK ->
  main w file fuel start = (Val status, q) ->
  f q = f {| calls := [];
             cout := "OpenGL Version: " ++ gl_version w ++ endl;
             cerr := "" |}.
Proof.
  intros Hinit Hwindow Hglew. apply Z.eqb_neq in Hinit, Hwindow.
  unfold main. step. branch Hinit. do 5 step. branch Hwindow. do 4 step.
  rewrite Hglew. change (negb (GLEW_OK =? GLEW_OK)) with false. cbv iota.
  do 2 step.
  match goal with
  | |- context [c_str (w_str w ?t (glGetString GL_VERSION))] =>
      change (c_str (w_str w t (glGetString GL_VERSION))) with (gl_version w)
  end.
  intros E.
  match type of E with
  | ?m ?p = _ =>
      assert (K : keeps f m) by keep_walk;
      rewrite (K (f p) p status q eq_refl E)
  end.
  exact (f_calls {| calls := [];
                    cout := "OpenGL Version: " ++ gl_version w ++ endl;
                    cerr := "" |} _).
Qed.

End Keeps.

(** X7.  When [main] returns 0, all it has written to [cout] is the line
    ["OpenGL Version: "] with the text of [glGetString(GL_VERSION)]: no
    shader info log is printed on a run that gets that far. *)
Theorem main_stdout_is_the_version_line :
  forall (w : World) (file : string) (fuel : nat) (q : Proc),
    main w file fuel start = (Val 0, q) ->
    cout q = ("OpenGL Version: " ++ gl_version w ++ endl)%string.
Proof.
  intros w file fuel q H.
  destruct (main_returns_0_initialized w file fuel q H) as (H1 & H2 & H3).
  apply (main_keeps w string cout) with (file := file) (fuel := fuel) (status := 0);
    auto.
  intros F File L x p a q' Hp E. rewrite PrintOpenGLErrors_run in E.
  injection E as Ha Hq. now subst a q'.
Qed.

Lemma main_stdout_is_the_version_line_witness :
  cout (snd (main healthy_world "main.cpp" 3 start)) =
    ("OpenGL Version: 3.3.0" ++ endl)%string.
Proof.
  rewrite (main_stdout_is_the_version_line healthy_world "main.cpp" 3
             (snd (main healthy_world "main.cpp" 3 start))).
  - reflexivity.
  - vm_compute. reflexivity.
Defined.



(** ** Exceptions *)

Lemma throws_plain {A} (P : Proc -> Prop) (m : M A) (E : exn -> Proc -> Prop) :
  plain m -> throws P m E.
Proof.
  intros Hm p e q _ H. destruct (Hm p) as (a & p' & Em).
  rewrite Em in H. discriminate H.
Qed.

Lemma throws_bind {A B} (P : Proc -> Prop) (m : M A) (R : A -> Proc -> Prop)
    (k : A -> M B) (E : exn -> Proc -> Prop) :
  hoare P m R -> throws P m E -> (forall a, throws (R a) (k a) E) ->
  throws P (bind m k) E.
Proof.
  intros Hm Ht Hk p e q Hp H. unfold bind in H.
  destruct (m p) as [[a | e' |] p'] eqn:Em.
  - exact (Hk a p' e q (Hm p a p' Hp Em) H).
  - injection H as He Hq. subst e' p'. exact (Ht p e q Hp Em).
  - discriminate H.
Qed.

Lemma throws_if {A} (P : Proc -> Prop) (c : bool) (m1 m2 : M A)
    (E : exn -> Proc -> Prop) :
  throws P m1 E -> throws P m2 E -> throws P (if c then m1 else m2) E.
Proof. now destruct c. Qed.

Lemma throws_emits_bind {A B} (t : list Event) (m : M A) (L : A -> list Event)
    (k : A -> M B) (E : exn -> Proc -> Prop) :
  emits m L ->
  throws (fun p => lifecycle (calls p) = t) m E ->
  (forall a, throws (fun p => lifecycle (calls p) = t ++ L a) (k a) E) ->
  throws (fun p => lifecycle (calls p) = t) (bind m k) E.
Proof. intros Hm Ht Hk. eapply throws_bind; [apply Hm | exact Ht | exact Hk]. Qed.

Lemma throws_render_loop (w : World) (file : string) (window : Z) (fuel : nat)
    (P : Proc -> Prop) (E : exn -> Proc -> Prop) :
  throws P (render_loop w file window fuel) E.
Proof.
  intros p e q _ H.
  destruct (render_loop_frames_run w file window fuel p _ q H)
    as (k & close & _ & [(Hr & _) | (Hr & _)]); discriminate Hr.
Qed.

(** The two exceptions of [CompileShader] and what was created when each
    leaves. *)
Lemma CompileShader_throws (w : World) (path : string) (shaderType : Z)
    (t : list Event) :
  throws (fun p => lifecycle (calls p) = t) (CompileShader w path shaderType)
    (fun e q =>
       (e = runtime_error ("Failed to open shader file: " ++ path) /\
        lifecycle (calls q) = t) \/
       (exists (shader : Z) (infoLog : string),
           e = runtime_error ("Shader compilation failed: " ++ infoLog) /\
           lifecycle (calls q) = t ++ [(glCreateShader shaderType, RInt shader)])).
Proof.
  intros p e q Hp H.
  destruct (w_file w path) as [src |] eqn:Hfile.
  - destruct (Z.eq_dec (compile_status w p shaderType src) 0) as [H0 | H0].
    + rewrite (CompileShader_failure_run w path src shaderType p Hfile H0) in H.
      injection H as He Hq. right.
      exists (created_shader w p shaderType), (fixed_buffer_log w p shaderType src).
      split; [symmetry; exact He |].
      match type of Hq with
      | snd (PrintShaderInfoLog w ?s ?p0) = _ =>
          destruct (PrintShaderInfoLog_quiet w s p0) as (p' & more & E & Hc & Hl & _)
      end.
      rewrite E in Hq. cbn [snd] in Hq. subst q. rewrite Hc. cbn [calls].
      unfold compiled. rewrite !lifecycle_app, Hp, Hl. cbn.
      now rewrite !app_nil_r.
    + rewrite (CompileShader_success_run w path src shaderType p Hfile H0) in H.
      discriminate H.
  - unfold CompileShader, LoadShaderFromFile in H. rewrite Hfile in H.
    unfold bind, throw in H. injection H as He Hq. subst e q. now left.
Qed.

(** Walk one statement of [main] that cannot throw. *)
Ltac walk_throws :=
  eapply throws_emits_bind;
  [ solve [eauto with emits]
  | apply throws_plain; solve [auto with plain]
  | intros ?; cbv beta ].

Lemma main_throws (w : World) (file : string) (fuel : nat) :
  throws (fun p => lifecycle (calls p) = []) (main w file fuel)
         (fun e q => escapes e (lifecycle (calls q))).
Proof.
  unfold main. walk_throws. apply throws_if.
  { repeat walk_throws. apply throws_plain. auto with plain. }
  do 5 walk_throws. apply throws_if.
  { repeat walk_throws. apply throws_plain. auto with plain. }
  do 4 walk_throws. apply throws_if.
  { repeat walk_throws. apply throws_plain. auto with plain. }
  repeat walk_throws.
  eapply throws_emits_bind; [apply emits_CompileShader | | intros VertexShader].
  { intros p e q Hp H.
    destruct (CompileShader_throws w _ _ _ p e q Hp H)
      as [(He & Hq) | (shader & infoLog & He & Hq)];
      cbn in Hq; do 3 eexists.
    - left. split; [exact He | exact Hq].
    - right. left. exists shader, infoLog. split; [exact He | exact Hq]. }
  eapply throws_emits_bind; [apply emits_CompileShader | | intros FragmentShader].
  { intros p e q Hp H.
    destruct (CompileShader_throws w _ _ _ p e q Hp H)
      as [(He & Hq) | (shader & infoLog & He & Hq)];
      cbn in Hq; do 3 eexists.
    - right. right. left. exists VertexShader. split; [exact He | exact Hq].
    - right. right. right. exists VertexShader, shader, infoLog.
      split; [exact He | exact Hq]. }
  repeat walk_throws.
  eapply throws_emits_bind;
    [apply emits_render_loop | apply throws_render_loop | intros ?; cbv beta].
  repeat walk_throws. apply throws_plain. auto with plain.
Qed.

(** X9.  An exception leaves [main] only from one of the two calls of
    [CompileShader]: a shader file that cannot be opened or a shader that
    does not compile.  At that point the vertex array, the two buffers and
    the shaders created so far, the one that failed to compile included,
    have not been released and the windowing library has not been shut
    down. *)
Theorem main_exception_releases_nothing :
  forall (w : World) (file : string) (fuel : nat) (e : exn) (q : Proc),
    main w file fuel start = (Throw e, q) ->
    escapes e (lifecycle (calls q)).
Proof.
  intros w file fuel e q H.
  exact (main_throws w file fuel start e q eq_refl H).
Qed.

Lemma main_exception_releases_nothing_witness :
  escapes (runtime_error "Shader compilation failed: ERROR: 0:1: syntax error")
    [(glGenVertexArrays 1, RInt 1);
     (glGenBuffers 1, RInt 2);
     (glGenBuffers 1, RInt 3);
     (glCreateShader GL_VERTEX_SHADER, RInt 4)].
Proof.
  apply (main_exception_releases_nothing rejecting_world "main.cpp" 1
           (runtime_error "Shader compilation failed: ERROR: 0:1: syntax error")
           (snd (main rejecting_world "main.cpp" 1 start))).
  vm_compute. reflexivity.
Defined.

(** ** The order of the calls on GPU objects *)

Lemma hoare_pre_exists {A T} (P : T -> Proc -> Prop) (m : M A)
    (Q : A -> Proc -> Prop) :
  (forall x, hoare (P x) m Q) -> hoare (fun p => exists x, P x p) m Q.
Proof. intros H p a q (x & Hp) E. exact (H x p a q Hp E). Qed.

Lemma hoare_pre_fact {A} (fact : Prop) (P : Proc -> Prop) (m : M A)
    (Q : A -> Proc -> Prop) :
  (fact -> hoare P m Q) -> hoare (fun p => fact /\ P p) m Q.
Proof. intros H p a q (Hf & Hp) E. exact (H Hf p a q Hp E). Qed.

Lemma CompileShader_object_calls (w : World) (path : string) (shaderType : Z)
    (t : list Event) :
  hoare (fun p => view object_call (calls p) = t) (CompileShader w path shaderType)
    (fun shader q =>
       exists src : string,
         w_file w path = Some src /\
         view object_call (calls q) =
           t ++ [(glCreateShader shaderType, RInt shader);
                 (glShaderSource shader 1 (c_str src), RVoid);
                 (glCompileShader shader, RVoid)]).
Proof.
  intros p a q Hp E.
  destruct (w_file w path) as [src |] eqn:Hfile.
  - destruct (Z.eq_dec (compile_status w p shaderType src) 0) as [H0 | H0].
    + rewrite (CompileShader_failure_run w path src shaderType p Hfile H0) in E.
      discriminate E.
    + rewrite (CompileShader_success_run w path src shaderType p Hfile H0) in E.
      injection E as Ha Hq. subst a q. exists src. split; [reflexivity |].
      cbn [calls]. unfold compiled. rewrite !view_app, Hp. cbn.
      now rewrite app_nil_r.
  - unfold CompileShader, LoadShaderFromFile in E. rewrite Hfile in E.
    discriminate E.
Qed.

(** Walk one statement of [main] under the view of the object calls. *)
Ltac walk_objects :=
  eapply hoare_shows_bind; [solve [eauto with shows] | intros ?; cbv beta].

Lemma render_loop_object_calls (w : World) (file : string) (window : Z)
    (fuel : nat) :
  shows object_call (render_loop w file window fuel) (fun _ => []).
Proof.
  induction fuel as [| fuel IH]; intros t.
  - intros p a q _ E. discriminate E.
  - cbn [render_loop]. walk_objects. apply hoare_if.
    + do 4 walk_objects.
      intros p u q Hp E. rewrite (IH _ p u q Hp E). cbn. now rewrite !app_nil_r.
    + apply hoare_ret. intros p Hp. rewrite Hp. cbn. now rewrite !app_nil_r.
Qed.

#[local] Hint Resolve render_loop_object_calls : shows.

Lemma main_object_calls (w : World) (file : string) (fuel : nat) :
  hoare (fun p => view object_call (calls p) = []) (main w file fuel)
    (fun status q =>
       status = 0 ->
       exists (VAO VBO EBO VertexShader FragmentShader ShaderProgram
                 PositionAttribute : Z) (vertex_source fragment_source : string),
         w_file w "shaders/vertex.glsl" = Some vertex_source /\
         w_file w "shaders/fragment.glsl" = Some fragment_source /\
         view object_call (calls q) =
           [(glGenVertexArrays 1, RInt VAO);
            (glBindVertexArray VAO, RVoid);
            (glGenBuffers 1, RInt VBO);
            (glBindBuffer GL_ARRAY_BUFFER VBO, RVoid);
            (glBufferData GL_ARRAY_BUFFER 24 Vertices GL_STATIC_DRAW, RVoid);
            (glGenBuffers 1, RInt EBO);
            (glBindBuffer GL_ELEMENT_ARRAY_BUFFER EBO, RVoid);
            (glBufferData GL_ELEMENT_ARRAY_BUFFER 12 Elements GL_STATIC_DRAW, RVoid);
            (glCreateShader GL_VERTEX_SHADER, RInt VertexShader);
            (glShaderSource VertexShader 1 (c_str vertex_source), RVoid);
            (glCompileShader VertexShader, RVoid);
            (glCreateShader GL_FRAGMENT_SHADER, RInt FragmentShader);
            (glShaderSource FragmentShader 1 (c_str fragment_source), RVoid);
            (glCompileShader FragmentShader, RVoid);
            (glCreateProgram, RInt ShaderProgram);
            (glAttachShader ShaderProgram VertexShader, RVoid);
            (glAttachShader ShaderProgram FragmentShader, RVoid);
            (glLinkProgram ShaderProgram, RVoid);
            (glUseProgram ShaderProgram, RVoid);
            (glGetAttribLocation ShaderProgram "position", RInt PositionAttribute);
            (glEnableVertexAttribArray (GLuint PositionAttribute), RVoid);
            (glVertexAttribPointer (GLuint PositionAttribute) 2 GL_FLOAT GL_FALSE 0 0,
             RVoid);
            (glDeleteProgram ShaderProgram, RVoid);
            (glDeleteShader FragmentShader, RVoid);
            (glDeleteShader VertexShader, RVoid);
            (glDeleteBuffers 1 EBO, RVoid);
            (glDeleteBuffers 1 VBO, RVoid);
            (glDeleteVertexArrays 1 VAO, RVoid)]).
Proof.
  unfold main. walk_objects. apply hoare_if.
  { repeat walk_objects. apply hoare_ret. intros p _ H. discriminate H. }
  do 5 walk_objects. apply hoare_if.
  { repeat walk_objects. apply hoare_ret. intros p _ H. discriminate H. }
  do 4 walk_objects. apply hoare_if.
  { repeat walk_objects. apply hoare_ret. intros p _ H. discriminate H. }
  repeat walk_objects.
  eapply hoare_bind; [apply CompileShader_object_calls | intros VertexShader].
  apply hoare_pre_exists. intros vertex_source.
  apply hoare_pre_fact. intros Hvertex.
  eapply hoare_bind; [apply CompileShader_object_calls | intros FragmentShader].
  apply hoare_pre_exists. intros fragment_source.
  apply hoare_pre_fact. intros Hfragment.
  repeat walk_objects.
  apply hoare_ret. intros p Hp _. cbn in Hp.
  do 7 eexists. exists vertex_source, fragment_source.
  split; [exact Hvertex | split; [exact Hfragment | exact Hp]].
Qed.

(** X10.  When [main] returns 0, the calls it made on GPU objects are, in
    this order and with these arguments: the vertex array created and
    bound; each buffer created, bound to its target and filled (24 bytes
    of vertices, 12 bytes of indices); each shader created, given the text
    of its file and compiled, vertex before fragment; the program created,
    the two shaders attached, vertex first, then linked and used; the
    attribute ["position"] looked up in that program, enabled and given its
    layout at the index found; and the six releases.  Both shader files
    were read. *)
Theorem main_object_call_order :
  forall (w : World) (file : string) (fuel : nat) (q : Proc),
    main w file fuel start = (Val 0, q) ->
    exists (VAO VBO EBO VertexShader FragmentShader ShaderProgram
              PositionAttribute : Z) (vertex_source fragment_source : string),
      w_file w "shaders/vertex.glsl" = Some vertex_source /\
      w_file w "shaders/fragment.glsl" = Some fragment_source /\
      view object_call (calls q) =
        [(glGenVertexArrays 1, RInt VAO);
         (glBindVertexArray VAO, RVoid);
         (glGenBuffers 1, RInt VBO);
         (glBindBuffer GL_ARRAY_BUFFER VBO, RVoid);
         (glBufferData GL_ARRAY_BUFFER 24 Vertices GL_STATIC_DRAW, RVoid);
         (glGenBuffers 1, RInt EBO);
         (glBindBuffer GL_ELEMENT_ARRAY_BUFFER EBO, RVoid);
         (glBufferData GL_ELEMENT_ARRAY_BUFFER 12 Elements GL_STATIC_DRAW, RVoid);
         (glCreateShader GL_VERTEX_SHADER, RInt VertexShader);
         (glShaderSource VertexShader 1 (c_str vertex_source), RVoid);
         (glCompileShader VertexShader, RVoid);
         (glCreateShader GL_FRAGMENT_SHADER, RInt FragmentShader);
         (glShaderSource FragmentShader 1 (c_str fragment_source), RVoid);
         (glCompileShader FragmentShader, RVoid);
         (glCreateProgram, RInt ShaderProgram);
         (glAttachShader ShaderProgram VertexShader, RVoid);
         (glAttachShader ShaderProgram FragmentShader, RVoid);
         (glLinkProgram ShaderProgram, RVoid);
         (glUseProgram ShaderProgram, RVoid);
         (glGetAttribLocation ShaderProgram "position", RInt PositionAttribute);
         (glEnableVertexAttribArray (GLuint PositionAttribute), RVoid);
         (glVertexAttribPointer (GLuint PositionAttribute) 2 GL_FLOAT GL_FALSE 0 0,
          RVoid);
         (glDeleteProgram ShaderProgram, RVoid);
         (glDeleteShader FragmentShader, RVoid);
         (glDeleteShader VertexShader, RVoid);
         (glDeleteBuffers 1 EBO, RVoid);
         (glDeleteBuffers 1 VBO, RVoid);
         (glDeleteVertexArrays 1 VAO, RVoid)].
Proof.
  intros w file fuel q H.
  exact (main_object_calls w file fuel start 0 q eq_refl H eq_refl).
Qed.

Lemma main_object_call_order_witness :
  exists (VAO VBO EBO VertexShader FragmentShader ShaderProgram
            PositionAttribute : Z) (vertex_source fragment_source : string),
    w_file healthy_world "shaders/vertex.glsl" = Some vertex_source /\
    w_file healthy_world "shaders/fragment.glsl" = Some fragment_source /\
    view object_call (calls (snd (main healthy_world "main.cpp" 3 start))) =
      [(glGenVertexArrays 1, RInt VAO);
       (glBindVertexArray VAO, RVoid);
       (glGenBuffers 1, RInt VBO);
       (glBindBuffer GL_ARRAY_BUFFER VBO, RVoid);
       (glBufferData GL_ARRAY_BUFFER 24 Vertices GL_STATIC_DRAW, RVoid);
       (glGenBuffers 1, RInt EBO);
       (glBindBuffer GL_ELEMENT_ARRAY_BUFFER EBO, RVoid);
       (glBufferData GL_ELEMENT_ARRAY_BUFFER 12 Elements GL_STATIC_DRAW, RVoid);
       (glCreateShader GL_VERTEX_SHADER, RInt VertexShader);
       (glShaderSource VertexShader 1 (c_str vertex_source), RVoid);
       (glCompileShader VertexShader, RVoid);
       (glCreateShader GL_FRAGMENT_SHADER, RInt FragmentShader);
       (glShaderSource FragmentShader 1 (c_str fragment_source), RVoid);
       (glCompileShader FragmentShader, RVoid);
       (glCreateProgram, RInt ShaderProgram);
       (glAttachShader ShaderProgram VertexShader, RVoid);
       (glAttachShader ShaderProgram FragmentShader, RVoid);
       (glLinkProgram ShaderProgram, RVoid);
       (glUseProgram ShaderProgram, RVoid);
       (glGetAttribLocation ShaderProgram "position", RInt PositionAttribute);
       (glEnableVertexAttribArray (GLuint PositionAttribute), RVoid);
       (glVertexAttribPointer (GLuint PositionAttribute) 2 GL_FLOAT GL_FALSE 0 0,
        RVoid);
       (glDeleteProgram ShaderProgram, RVoid);
       (glDeleteShader FragmentShader, RVoid);
       (glDeleteShader VertexShader, RVoid);
       (glDeleteBuffers 1 EBO, RVoid);
       (glDeleteBuffers 1 VBO, RVoid);
       (glDeleteVertexArrays 1 VAO, RVoid)].
Proof.
  apply (main_object_call_order healthy_world "main.cpp" 3
           (snd (main healthy_world "main.cpp" 3 start))).
  vm_compute. reflexivity.
Defined.

(** ** Termination *)

Lemma halts_plain {A} (m : M A) : plain m -> halts m.
Proof.
  intros Hm p r q E. destruct (Hm p) as (a & p' & Em).
  rewrite Em in E. injection E as Hr _. subst r. discriminate.
Qed.

Lemma halts_throw {A} (e : exn) : halts (@throw A e).
Proof. intros p r q E. injection E as Hr _. subst r. discriminate. Qed.

Lemma halts_bind {A B} (m : M A) (k : A -> M B) :
  halts m -> (forall a, halts (k a)) -> halts (bind m k).
Proof.
  intros Hm Hk p r q E. unfold bind in E.
  destruct (m p) as [[a | e |] p'] eqn:Em.
  - exact (Hk a p' r q E).
  - injection E as Hr _. subst r. discriminate.
  - now contradiction (Hm p OutOfFuel p' Em).
Qed.

Lemma halts_if {A} (c : bool) (m1 m2 : M A) :
  halts m1 -> halts m2 -> halts (if c then m1 else m2).
Proof. now destruct c. Qed.

Lemma halts_CompileShader (w : World) (path : string) (shaderType : Z) :
  halts (CompileShader w path shaderType).
Proof.
  unfold CompileShader, LoadShaderFromFile.
  apply halts_bind.
  - destruct (w_file w path); [apply halts_plain, plain_ret | apply halts_throw].
  - intros shaderSource. cbv zeta.
    apply halts_bind; [apply halts_plain; auto with plain | intros shader].
    apply halts_bind; [apply halts_plain; auto with plain | intros _].
    apply halts_bind; [apply halts_plain; auto with plain | intros _].
    apply halts_bind; [apply halts_plain; auto with plain | intros success].
    apply halts_if; [| apply halts_plain, plain_ret].
    apply halts_bind.
    { intros p r q E. injection E as Hr _. subst r. discriminate. }
    intros infoLog.
    apply halts_bind; [apply halts_plain; auto with plain | intros _].
    apply halts_throw.
Qed.

Lemma count_calls_app (f : Call -> bool) (t u : list Event) :
  count_calls f (t ++ u) = count_calls f t + count_calls f u.
Proof.
  unfold count_calls. rewrite filter_app, length_app. lia.
Qed.

Lemma count_calls_view (f : Call -> bool) (t : list Event) :
  count_calls f t = Z.of_nat (List.length (view f t)).
Proof. reflexivity. Qed.

Section Closing.

Variable w : World.
Variable n : nat.

(** The window reports that it should close once [n] frames have been
    presented. *)
Hypothesis closes :
  forall (t : list Event) (window : Z),
    Z.of_nat n <= count_calls swap_call t ->
    int (w_int w t (glfwWindowShouldClose window)) <> 0.

(** From a step that returned, the buffer swaps it added. *)
Ltac swap_fact E :=
  match type of E with
  | ?m ?p = (Val ?a, ?q) =>
      let F := fresh "F" in
      eassert (F : shows swap_call m _) by (eauto with shows);
      specialize (F _ p a q eq_refl E); cbv beta in F;
      apply (f_equal (fun l => Z.of_nat (List.length l))) in F;
      rewrite length_app, Nat2Z.inj_add, <- !count_calls_view in F;
      cbn in F
  end.

Lemma render_loop_halts (file : string) (window : Z) :
  forall (fuel : nat) (p : Proc),
    (1 <= fuel)%nat ->
    Z.of_nat n < count_calls swap_call (calls p) + Z.of_nat fuel ->
    forall (r : Res unit) (q : Proc),
      render_loop w file window fuel p = (r, q) -> r <> OutOfFuel.
Proof.
  induction fuel as [| fuel IH]; intros p Hfuel Hn r q H; [lia |].
  cbn [render_loop] in H.
  apply bind_inv_plain in H; [| auto with plain].
  destruct H as (close & p1 & E1 & H). swap_fact E1.
  assert (Hclose : close = int (w_int w (calls p) (glfwWindowShouldClose window))).
  { injection E1 as Ha _. now rewrite <- Ha. }
  destruct (Z.eqb_spec close 0) as [Hc | Hc].
  - assert (Hlt : count_calls swap_call (calls p) < Z.of_nat n).
    { destruct (Z.lt_ge_cases (count_calls swap_call (calls p)) (Z.of_nat n))
        as [Hlt | Hge]; [exact Hlt |].
      exfalso. apply (closes (calls p) window Hge). now rewrite <- Hclose. }
    apply bind_inv_plain in H; [| auto with plain].
    destruct H as (? & p2 & E2 & H). swap_fact E2.
    apply bind_inv_plain in H; [| auto with plain].
    destruct H as (? & p3 & E3 & H). swap_fact E3.
    apply bind_inv_plain in H; [| auto with plain].
    destruct H as (? & p4 & E4 & H). swap_fact E4.
    apply bind_inv_plain in H; [| auto with plain].
    destruct H as (? & p5 & E5 & H). swap_fact E5.
    refine (IH p5 _ _ r q H); lia.
  - injection H as Hr _. subst r. discriminate.
Qed.

Lemma main_halts (file : string) (fuel : nat) :
  (n < fuel)%nat -> halts (main w file fuel).
Proof.
  intros Hfuel. unfold main.
  repeat match goal with
    | |- halts (bind (render_loop _ _ _ _) _) => apply halts_bind; [| intros ?]
    | |- halts (bind (CompileShader _ _ _) _) =>
        apply halts_bind; [apply halts_CompileShader | intros ?]
    | |- halts (bind _ _) =>
        apply halts_bind; [apply halts_plain; solve [auto with plain] | intros ?]
    | |- halts (if _ then _ else _) => apply halts_if
    | |- halts (ret _) => apply halts_plain, plain_ret
    end.
  intros p r q H. refine (render_loop_halts _ _ fuel p _ _ r q H); [lia |].
  unfold count_calls. lia.
Qed.

End Closing.

(** X11.  If the window reports that it should close once [n] frames
    have been presented, then with fuel for more than [n] tests of the
    close flag [main] ends, by a return or by an exception: the render
    loop is left after at most [n] frames. *)
Theorem main_terminates_when_the_window_closes :
  forall (w : World) (file : string) (n fuel : nat),
    (forall (t : list Event) (window : Z),
        Z.of_nat n <= count_calls swap_call t ->
        int (w_int w t (glfwWindowShouldClose window)) <> 0) ->
    (n < fuel)%nat ->
    fst (main w file fuel start) <> OutOfFuel.
Proof.
  intros w file n fuel Hcloses Hfuel.
  destruct (main w file fuel start) as [r q] eqn:E. cbn [fst].
  exact (main_halts w n Hcloses file fuel Hfuel start r q E).
Qed.

Lemma healthy_world_closes (t : list Event) (window : Z) :
  Z.of_nat 2 <= count_calls swap_call t ->
  int (w_int healthy_world t (glfwWindowShouldClose window)) <> 0.
Proof.
  intros H.
  change (w_int healthy_world t (glfwWindowShouldClose window))
    with (if count_calls swap_call t <? 2 then 0 else 1).
  destruct (Z.ltb_spec (count_calls swap_call t) 2); [lia | discriminate].
Defined.

Lemma main_terminates_when_the_window_closes_witness :
  fst (main healthy_world "main.cpp" 3 start) <> OutOfFuel.
Proof.
  apply (main_terminates_when_the_window_closes healthy_world "main.cpp" 2 3).
  - exact healthy_world_closes.
  - lia.
Defined.

(** ** Shutting the windowing library down *)

Lemma ends_with_glfwTerminate (P : Proc -> Prop) (status : Z) :
  hoare P (bind (call_void glfwTerminate) (fun _ => ret status))
        (fun _ q => exists t, calls q = t ++ [(glfwTerminate, RVoid)]).
Proof.
  intros p a q _ E. rewrite step_call_void in E.
  injection E as _ Hq. subst q. now exists (calls p).
Qed.

Lemma main_returns_after_glfwTerminate (w : World) (file : string) (fuel : nat)
    (status : Z) (q : Proc) :
  glfwInit_answer w <> 0 ->
  main w file fuel start = (Val status, q) ->
  exists t, calls q = t ++ [(glfwTerminate, RVoid)].
Proof.
  intros Hinit. apply Z.eqb_neq in Hinit.
  unfold main. step. branch Hinit.
  apply (hoare_run _ (fun _ q => exists t, calls q = t ++ [(glfwTerminate, RVoid)])).
  repeat match goal with
    | |- hoare _ (bind (call_void glfwTerminate) (fun _ => ret _)) _ =>
        apply ends_with_glfwTerminate
    | |- hoare _ (bind _ _) _ => apply hoare_skip; intros ?
    | |- hoare _ (if _ then _ else _) _ => apply hoare_if
    end.
Qed.

(** X12.  Once [glfwInit] has succeeded, whenever [main] returns, with 0
    or with -1, its last library call is [glfwTerminate]; and when
    [glfwInit] failed, [glfwTerminate] is not called at all. *)
Theorem main_returns_after_shutdown :
  forall (w : World) (file : string) (fuel : nat) (status : Z) (q : Proc),
    main w file fuel start = (Val status, q) ->
    (glfwInit_answer w <> 0 ->
     exists t, calls q = t ++ [(glfwTerminate, RVoid)]) /\
    (glfwInit_answer w = 0 ->
     forall r : Ret, ~ In (glfwTerminate, r) (calls q)).
Proof.
  intros w file fuel status q H. split.
  - intros Hinit. exact (main_returns_after_glfwTerminate w file fuel status q Hinit H).
  - intros Hinit r Hin.
    rewrite (main_glfwInit_failure w file fuel Hinit) in H.
    injection H as _ Hq. subst q. cbn in Hin.
    destruct Hin as [Hin | []]. discriminate Hin.
Qed.

Lemma main_returns_after_shutdown_witness :
  (exists t,
      calls (snd (main no_window_world "main.cpp" 1 start))
        = t ++ [(glfwTerminate, RVoid)]) /\
  (forall r : Ret,
      ~ In (glfwTerminate, r) (calls (snd (main no_glfw_world "main.cpp" 1 start)))).
Proof.
  split.
  - apply (proj1 (main_returns_after_shutdown no_window_world "main.cpp" 1 (-1)
                    (snd (main no_window_world "main.cpp" 1 start)) eq_refl)).
    vm_compute. discriminate.
  - apply (proj2 (main_returns_after_shutdown no_glfw_world "main.cpp" 1 (-1)
                    (snd (main no_glfw_world "main.cpp" 1 start)) eq_refl)).
    reflexivity.
Defined.
